(** * Gmail information management: the categorisation and task routes

    A shallow embedding of the Next.js API routes
    [api/organize/categorize], [api/todo/generate-tasks] and
    [api/organize/draft], and of the client function
    [generateTasksFromEmails], with the properties their specification
    states about them.

    Conventions of the embedding.
    - A JavaScript string is a [string]: the bytes of its UTF-8 encoding,
      on which [includes] finds the same occurrences as on the text.
    - [String.prototype.toLowerCase] belongs to the platform: the code
      that calls it takes it as a parameter [toLowerCase], and what is
      proved of that code holds for every such function.
    - A value that may be [undefined] is an [option].
    - The language-model backend is an oracle: a probe that succeeds or
      throws, and a chat function whose call may throw, or return a message
      with or without content.  Routes return their HTTP response together
      with the log of the backend calls they made, in order. *)

From Stdlib Require Import String Ascii List Bool Arith Lia.
Import ListNotations.
Open Scope string_scope.
Open Scope list_scope.

(** ** JavaScript string primitives *)
Module Js.

(** [hay.includes(needle)] *)
Fixpoint includes (hay needle : string) : bool :=
  String.prefix needle hay
  || match hay with
     | EmptyString => false
     | String _ t => includes t needle
     end.

(** A string is falsy exactly when it is empty. *)
Definition truthy (s : string) : bool :=
  match s with EmptyString => false | _ => true end.

(** [v || d] on a possibly undefined string. *)
Definition or_else (v : option string) (d : string) : string :=
  match v with
  | Some s => if truthy s then s else d
  | None => d
  end.

(** [${v}] inside a template literal. *)
Definition template (v : option string) : string :=
  match v with Some s => s | None => "undefined" end.

(** [xs.join(sep)] *)
Fixpoint join (sep : string) (xs : list string) : string :=
  match xs with
  | [] => EmptyString
  | [x] => x
  | x :: rest => x ++ sep ++ join sep rest
  end.

End Js.

(** ** Keyword fallback of the categorise route *)
Module Keyword.
Import Js.

Section Lowering.

(** [String.prototype.toLowerCase] *)
Variable toLowerCase : string -> string.

(** The text both helpers scan: [`${title} ${description}`.toLowerCase()]. *)
Definition combined (title description : string) : string :=
  toLowerCase (title ++ " " ++ description).

Definition extractThemeFromTask (title description : string) : string :=
  let text := combined title description in
  if includes text "work" || includes text "meeting"
     || includes text "project" || includes text "client" then "work"
  else if includes text "personal" || includes text "family"
     || includes text "friend" then "personal"
  else if includes text "finance" || includes text "money"
     || includes text "payment" || includes text "bill" then "finance"
  else if includes text "shopping" || includes text "purchase"
     || includes text "buy" then "shopping"
  else if includes text "travel" || includes text "trip"
     || includes text "flight" then "travel"
  else if includes text "health" || includes text "medical"
     || includes text "doctor" then "health"
  else if includes text "education" || includes text "course"
     || includes text "learning" then "education"
  else "other".

Definition extractCategoryFromTask (title description : string) : string :=
  let text := combined title description in
  if includes text "meeting" then "meeting"
  else if includes text "project" then "project"
  else if includes text "client" then "client"
  else if includes text "payment" then "payment"
  else if includes text "purchase" then "purchase"
  else if includes text "trip" then "trip"
  else if includes text "medical" then "medical"
  else if includes text "course" then "course"
  else "general".

End Lowering.

(** The specification's reading: an ordered table of
    (substring, label) pairs, scanned from the front. *)
Fixpoint first_match (rules : list (string * string)) (dflt text : string)
  : string :=
  match rules with
  | [] => dflt
  | (kw, label) :: rest =>
      if includes text kw then label else first_match rest dflt text
  end.

Definition themeRules : list (string * string) :=
  [ ("work", "work"); ("meeting", "work"); ("project", "work");
    ("client", "work");
    ("personal", "personal"); ("family", "personal"); ("friend", "personal");
    ("finance", "finance"); ("money", "finance"); ("payment", "finance");
    ("bill", "finance");
    ("shopping", "shopping"); ("purchase", "shopping"); ("buy", "shopping");
    ("travel", "travel"); ("trip", "travel"); ("flight", "travel");
    ("health", "health"); ("medical", "health"); ("doctor", "health");
    ("education", "education"); ("course", "education");
    ("learning", "education") ].

Definition categoryRules : list (string * string) :=
  [ ("meeting", "meeting"); ("project", "project"); ("client", "client");
    ("payment", "payment"); ("purchase", "purchase"); ("trip", "trip");
    ("medical", "medical"); ("course", "course") ].

End Keyword.

(** ** Data model *)
Module Model.
Import Js.

(** [interface Email] of the routes. *)
Record Email := mkEmail {
  id : string;
  subject : string;
  sender : string;
  date : string;
  snippet : string;
  body : option string;
  labels : list string;
  theme : option string;
  category : option string
}.

(** [interface CategorizedEmail extends Email]: theme and category are
    mandatory strings. *)
Record CategorizedEmail := mkCategorized {
  c_id : string;
  c_subject : string;
  c_sender : string;
  c_date : string;
  c_snippet : string;
  c_body : option string;
  c_labels : list string;
  c_theme : string;
  c_category : string
}.

(** [{ ...email, theme: t, category: c }] *)
Definition spread_with (email : Email) (t c : string) : CategorizedEmail :=
  {| c_id := id email; c_subject := subject email; c_sender := sender email;
     c_date := date email; c_snippet := snippet email; c_body := body email;
     c_labels := labels email; c_theme := t; c_category := c |}.

(** The seven fields a categorised record shares with its email. *)
Definition email_fields (e : Email) :=
  (id e, subject e, sender e, date e, snippet e, body e, labels e).

Definition record_fields (r : CategorizedEmail) :=
  (c_id r, c_subject r, c_sender r, c_date r, c_snippet r, c_body r,
   c_labels r).

(** The object the categorise prompt serialises for one email. *)
Record EmailData := mkEmailData {
  d_id : string;
  d_subject : string;
  d_sender : string;
  d_snippet : string;
  d_body : string
}.

Definition emailData (email : Email) : EmailData :=
  {| d_id := id email; d_subject := subject email; d_sender := sender email;
     d_snippet := snippet email;
     d_body := or_else (body email) (snippet email) |}.

(** An object generated by the model: its own properties, all string
    valued as the helper signatures [(title: string, description: string)]
    and the prompts declare them. *)
Definition Obj := list (string * string).

Fixpoint prop (k : string) (o : Obj) : option string :=
  match o with
  | [] => None
  | (k', v) :: rest => if String.eqb k k' then Some v else prop k rest
  end.

(** An element of the parsed array: [None] is a falsy element ([null]). *)
Definition Element := option Obj.

(** A call either returns or throws. *)
Inductive Outcome (A : Type) :=
  | Returned (a : A)
  | Thrown (message : string).
Arguments Returned {A} a.
Arguments Thrown {A} message.

(** The [emails] property of a request body. *)
Inductive EmailsField :=
  | EmailsFalsy
  | EmailsNonArray (length_is_zero : bool)
  | EmailsArray (emails : list Email).

(** What a route sends to the model.  The fixed instruction text around the
    interpolated part is left implicit for the two JSON prompts. *)
Inductive Prompt :=
  | CategorizePrompt (data : list EmailData)
  | TasksPrompt (emailContent : string)
  | DraftPrompt (text : string).

Inductive ChatResult :=
  | ChatThrows
  | ChatMessage (content : option string).

(** The Ollama client: [list()] succeeds or throws; the [n]-th [chat()] of
    a request answers the prompt it is given. *)
Record Backend := mkBackend {
  list_ok : bool;
  chat : nat -> Prompt -> ChatResult
}.

Inductive Call :=
  | ProbeCall
  | ChatCall (p : Prompt).

Inductive Response (A : Type) :=
  | Ok200 (payload : A)
  | Failure (status : nat) (error : string).
Arguments Ok200 {A} payload.
Arguments Failure {A} status error.

Definition ollama_unavailable : string :=
  "Ollama server not available. Please start Ollama with: ollama serve".

End Model.

(** ** The categorise route ([api/organize/categorize], Ollama variant) *)
Module Categorize.
Import Js Keyword Model.

Definition batchSize : nat := 10.

(** [emails.slice(i, i + batchSize)] *)
Definition slice (i j : nat) (emails : list Email) : list Email :=
  firstn (j - i) (skipn i emails).

Definition default_record (email : Email) : CategorizedEmail :=
  spread_with email "other" "general".

(** The chat call the loop makes for a batch. *)
Definition call_of (batch : list Email) : Call :=
  ChatCall (CategorizePrompt (map emailData batch)).

Section Route.

(** [String.prototype.toLowerCase], which the keyword helpers call. *)
Variable toLowerCase : string -> string.

(** [parseAIResponse] of [@/lib/json-helper]: it receives the response text
    only, and the route guards its call with [try]/[catch]. *)
Variable parseAIResponse : string -> Outcome (list Element).

(** Body of [batch.forEach((email, index) => ...)] for one email; the
    description reaches the helpers through a template literal only. *)
Definition categorize_one (categorization : list Element) (index : nat)
    (email : Email) : CategorizedEmail :=
  match nth_error categorization index with
  | Some (Some categorized) =>
      match prop "title" categorized with
      | Some title =>
          if truthy title then
            let description := template (prop "description" categorized) in
            let theme := extractThemeFromTask toLowerCase title description in
            let category :=
              extractCategoryFromTask toLowerCase title description in
            spread_with email (or_else (Some theme) "other")
                              (or_else (Some category) "general")
          else default_record email
      | None => default_record email
      end
  | _ => default_record email
  end.

(** [batch.forEach] pushing onto the shared [categorizedEmails]. *)
Fixpoint forEach_push (categorization : list Element) (index : nat)
    (batch : list Email) (categorizedEmails : list CategorizedEmail)
  : list CategorizedEmail :=
  match batch with
  | [] => categorizedEmails
  | email :: rest =>
      forEach_push categorization (S index) rest
        (categorizedEmails ++ [categorize_one categorization index email])
  end.

(** The [catch] branch: every email of the batch gets the default. *)
Fixpoint fallback_push (batch : list Email)
    (categorizedEmails : list CategorizedEmail) : list CategorizedEmail :=
  match batch with
  | [] => categorizedEmails
  | email :: rest =>
      fallback_push rest (categorizedEmails ++ [default_record email])
  end.

(** The [try]/[catch] around parsing and merging, for a truthy text. *)
Definition merge (categorizedEmails : list CategorizedEmail)
    (batch : list Email) (responseText : string) : list CategorizedEmail :=
  match parseAIResponse responseText with
  | Returned categorization =>
      forEach_push categorization 0 batch categorizedEmails
  | Thrown _ => fallback_push batch categorizedEmails
  end.

(** [if (responseText) { ... }], without an [else]. *)
Definition reconcile (categorizedEmails : list CategorizedEmail)
    (batch : list Email) (content : option string) : list CategorizedEmail :=
  match content with
  | Some responseText =>
      if truthy responseText then merge categorizedEmails batch responseText
      else categorizedEmails
  | None => categorizedEmails
  end.

(** The [for (let i = 0; i < emails.length; i += batchSize)] loop.  [n] is
    the number of chat calls made so far; [None] when the fuel runs out. *)
Fixpoint loop (b : Backend) (emails : list Email) (fuel i n : nat)
    (categorizedEmails : list CategorizedEmail) (log : list Call)
  : option (Response (list CategorizedEmail) * list Call) :=
  if Nat.ltb i (List.length emails) then
    match fuel with
    | O => None
    | S fuel' =>
        let batch := slice i (i + batchSize) emails in
        let p := CategorizePrompt (map emailData batch) in
        match chat b n p with
        | ChatThrows =>
            Some (Failure 500 "Failed to categorize emails",
                  log ++ [ChatCall p])
        | ChatMessage content =>
            loop b emails fuel' (i + batchSize) (S n)
                 (reconcile categorizedEmails batch content)
                 (log ++ [ChatCall p])
        end
    end
  else Some (Ok200 categorizedEmails, log).

(** [POST]: probe, guard on the shape of [emails], then the loop. *)
Definition POST_fuel (fuel : nat) (b : Backend) (emails : EmailsField)
  : option (Response (list CategorizedEmail) * list Call) :=
  if negb (list_ok b) then Some (Failure 500 ollama_unavailable, [ProbeCall])
  else
    match emails with
    | EmailsFalsy | EmailsNonArray _ =>
        Some (Failure 400 "Invalid emails data", [ProbeCall])
    | EmailsArray emails => loop b emails fuel 0 0 [] [ProbeCall]
    end.

Definition enough_fuel (emails : EmailsField) : nat :=
  match emails with
  | EmailsArray emails => List.length emails
  | _ => 0
  end.

Definition POST (b : Backend) (emails : EmailsField)
  : option (Response (list CategorizedEmail) * list Call) :=
  POST_fuel (enough_fuel emails) b emails.

(** The batches the loop forms, in order. *)
Fixpoint batches (fuel i : nat) (emails : list Email) : list (list Email) :=
  if Nat.ltb i (List.length emails) then
    match fuel with
    | O => []
    | S fuel' =>
        slice i (i + batchSize) emails :: batches fuel' (i + batchSize) emails
    end
  else [].

End Route.
End Categorize.

(** ** The task route ([api/todo/generate-tasks]) and its client *)
Module Tasks.
Import Js Model.

Definition nl : string := String (ascii_of_nat 10) EmptyString.

(** One email of the prompt:
    [`Subject: ${email.subject}\nFrom: ${email.sender}\nContent: ${email.snippet || email.body}\n`] *)
Definition email_block (email : Email) : string :=
  let content :=
    if truthy (snippet email) then Some (snippet email) else body email in
  "Subject: " ++ subject email ++ nl ++ "From: " ++ sender email ++ nl
  ++ "Content: " ++ template content ++ nl.

Definition emailContent (emails : list Email) : string :=
  join (nl ++ "---" ++ nl) (map email_block emails).

(** The JSON body of a successful answer: the tasks, and the two counts the
    message text mentions. *)
Record Payload := mkPayload {
  tasks : list Element;
  generated : nat;
  from_emails : nat
}.

Section Route.

Variable parseAIResponse : string -> Outcome (list Element).

(** What the route does with the reply of the single chat call. *)
Definition reconcile (emails : list Email) (content : option string)
  : Response Payload :=
  let no_response := Failure 500 "No response generated from AI" in
  match content with
  | Some responseText =>
      if truthy responseText then
        match parseAIResponse responseText with
        | Returned tasks =>
            Ok200 {| tasks := tasks; generated := List.length tasks;
                     from_emails := List.length emails |}
        | Thrown _ =>
            Failure 500 "Failed to parse AI response into valid tasks"
        end
      else no_response
  | None => no_response
  end.

(** [POST]: guard on [emails], probe, prompt, one chat call.  [tone] is
    read from the request and not used. *)
Definition POST (b : Backend) (emails : EmailsField) (tone : option string)
  : Response Payload * list Call :=
  let no_emails := (Failure 400 "No emails provided", []) in
  let probe_then (k : Response Payload * list Call) :=
    if negb (list_ok b) then (Failure 500 ollama_unavailable, [ProbeCall])
    else k in
  match emails with
  | EmailsFalsy => no_emails
  | EmailsNonArray true => no_emails
  | EmailsNonArray false =>
      (* [emails.map] is not a function: the outer [catch] *)
      probe_then (Failure 500 "Failed to generate tasks", [ProbeCall])
  | EmailsArray [] => no_emails
  | EmailsArray emails =>
      probe_then
        (let p := TasksPrompt (emailContent emails) in
         match chat b 0 p with
         | ChatThrows =>
             (Failure 500 "Failed to generate tasks", [ProbeCall; ChatCall p])
         | ChatMessage content =>
             (reconcile emails content, [ProbeCall; ChatCall p])
         end)
  end.

(** *** [generateTasksFromEmails] of the to-do page *)

Record TodoTask := mkTodoTask {
  t_props : Obj;          (* the properties spread from the generated task *)
  t_id : nat * nat;       (* [`task-${Date.now()}-${index}`] *)
  t_createdAt : nat;
  t_aiGenerated : bool
}.

Definition overridden (k : string) : bool :=
  String.eqb k "id" || String.eqb k "createdAt" || String.eqb k "aiGenerated".

(** [{ ...task, id, createdAt, aiGenerated: true }] *)
Definition new_task (now : nat) (index : nat) (task : Element) : TodoTask :=
  let own := match task with Some o => o | None => [] end in
  {| t_props := filter (fun kv => negb (overridden (fst kv))) own;
     t_id := (now, index); t_createdAt := now; t_aiGenerated := true |}.

Fixpoint map_index (now : nat) (index : nat) (ts : list Element)
  : list TodoTask :=
  match ts with
  | [] => []
  | t :: rest => new_task now index t :: map_index now (S index) rest
  end.

Definition emailId (t : TodoTask) : option string := prop "emailId" (t_props t).

Record Page := mkPage {
  emails : list Email;
  selectedEmails : list string;
  page_tasks : list TodoTask
}.

Definition selected (st : Page) : list Email :=
  filter (fun email => existsb (String.eqb (id email)) (selectedEmails st))
         (emails st).

(** Returns the new page state, the alert shown if any, and the backend
    calls made on the server. *)
Definition generateTasksFromEmails (b : Backend) (now : nat) (tone : string)
    (st : Page) : Page * option string * list Call :=
  match selectedEmails st with
  | [] =>
      (st, Some "Please select at least one email to generate tasks from.",
       [])
  | _ =>
      match POST b (EmailsArray (selected st)) (Some tone) with
      | (Ok200 data, log) =>
          ({| emails := emails st; selectedEmails := [];
              page_tasks := page_tasks st ++ map_index now 0 (tasks data) |},
           None, log)
      | (Failure _ error, log) =>
          (st, Some ("Error generating tasks: " ++ error)%string, log)
      end
  end.

End Route.
End Tasks.

(** ** The draft route ([api/organize/draft], Ollama variant) *)
Module Draft.
Import Js Model.

Definition nl : string := Tasks.nl.

(** [tone || 'professional'] *)
Definition effective_tone (tone : option string) : string :=
  or_else tone "professional".

(** The template literal assigned to [prompt]. *)
Definition prompt (email : Email) (tone instructions : option string)
  : string :=
  ("Generate a professional email draft response based on the following context:"
   ++ nl ++ nl
   ++ "ORIGINAL EMAIL:" ++ nl
   ++ "Subject: " ++ subject email ++ nl
   ++ "From: " ++ sender email ++ nl
   ++ "Date: " ++ date email ++ nl
   ++ "Content: " ++ or_else (body email) (snippet email) ++ nl
   ++ "Labels: " ++ join ", " (labels email) ++ nl
   ++ "Theme: " ++ or_else (theme email) "uncategorized" ++ nl ++ nl
   ++ "TONE REQUIREMENT: " ++ effective_tone tone ++ nl ++ nl
   ++ "USER INSTRUCTIONS: "
   ++ or_else instructions "Generate a professional response" ++ nl ++ nl
   ++ "Generate a draft email response that:" ++ nl
   ++ "1. Is contextually appropriate to the original email" ++ nl
   ++ "2. Matches the specified tone (" ++ effective_tone tone ++ ")" ++ nl
   ++ "3. Incorporates any user instructions provided" ++ nl
   ++ "4. Is well-structured and professional" ++ nl
   ++ "5. Can be easily edited by the user" ++ nl ++ nl
   ++ "Format the response as a complete email draft with appropriate greeting, body, and closing.")%string.

(** [POST]: probe, guard on [email], prompt, one chat call. *)
Definition POST (b : Backend) (email : option Email)
    (tone instructions : option string) : Response string * list Call :=
  if negb (list_ok b) then (Failure 500 ollama_unavailable, [ProbeCall])
  else
    match email with
    | None => (Failure 400 "Email is required", [ProbeCall])
    | Some email =>
        let p := DraftPrompt (prompt email tone instructions) in
        match chat b 0 p with
        | ChatThrows =>
            (Failure 500 "Failed to generate draft response",
             [ProbeCall; ChatCall p])
        | ChatMessage content =>
            (Ok200 (or_else content "Unable to generate draft response."),
             [ProbeCall; ChatCall p])
        end
    end.

(** The tone values the two pages offer. *)
Definition recognized_tones : list string :=
  ["formal"; "informal"; "professional"; "friendly"; "casual"].

Definition recognized (tone : string) : bool :=
  existsb (String.eqb tone) recognized_tones.

End Draft.

(** ** [@/lib/json-helper]

    The routes import [parseAIResponse] from this module and call it on
    the response text alone.  The definitions below are its extraction
    pipeline as the specification describes it. *)
Module JsonHelper.
Import Model.
Local Open Scope char_scope.

Inductive token :=
  | LBrack | RBrack | LBrace | RBrace | Comma | Colon
  | TNull
  | TStr (s : string).

Inductive lex_state :=
  | Outside
  | InString (rev_acc : list ascii)
  | InEscape (rev_acc : list ascii).

Definition dquote : ascii := ascii_of_nat 34.

Definition is_ws (c : ascii) : bool :=
  Ascii.eqb c " " || Ascii.eqb c (ascii_of_nat 9)
  || Ascii.eqb c (ascii_of_nat 10) || Ascii.eqb c (ascii_of_nat 13).

Definition string_of_rev (rev_acc : list ascii) : string :=
  string_of_list_ascii (rev rev_acc).

Definition unescape (c : ascii) : option ascii :=
  if Ascii.eqb c dquote then Some c
  else if Ascii.eqb c "\" then Some c
  else if Ascii.eqb c "/" then Some c
  else if Ascii.eqb c "n" then Some (ascii_of_nat 10)
  else if Ascii.eqb c "t" then Some (ascii_of_nat 9)
  else if Ascii.eqb c "r" then Some (ascii_of_nat 13)
  else if Ascii.eqb c "b" then Some (ascii_of_nat 8)
  else if Ascii.eqb c "f" then Some (ascii_of_nat 12)
  else None.

Definition push (t : token) (r : option (list token)) : option (list token) :=
  match r with Some ts => Some (t :: ts) | None => None end.

Fixpoint lex (st : lex_state) (s : string) : option (list token) :=
  match s with
  | EmptyString => match st with Outside => Some [] | _ => None end
  | String c t =>
      match st with
      | Outside =>
          if is_ws c then lex Outside t
          else if Ascii.eqb c "[" then push LBrack (lex Outside t)
          else if Ascii.eqb c "]" then push RBrack (lex Outside t)
          else if Ascii.eqb c "{" then push LBrace (lex Outside t)
          else if Ascii.eqb c "}" then push RBrace (lex Outside t)
          else if Ascii.eqb c "," then push Comma (lex Outside t)
          else if Ascii.eqb c ":" then push Colon (lex Outside t)
          else if Ascii.eqb c dquote then lex (InString []) t
          else if Ascii.eqb c "n" then
            match t with
            | String "u" (String "l" (String "l" t')) =>
                push TNull (lex Outside t')
            | _ => None
            end
          else None
      | InString acc =>
          if Ascii.eqb c dquote then push (TStr (string_of_rev acc)) (lex Outside t)
          else if Ascii.eqb c "\" then lex (InEscape acc) t
          else if Nat.ltb (nat_of_ascii c) 32 then None
          else lex (InString (c :: acc)) t
      | InEscape acc =>
          match unescape c with
          | Some c' => lex (InString (c' :: acc)) t
          | None => None
          end
      end
  end.

(** Assignment to a property: a repeated key keeps its place and takes the
    later value. *)
Fixpoint set_prop (k v : string) (o : Obj) : Obj :=
  match o with
  | [] => [(k, v)]
  | (k', v') :: rest =>
      if String.eqb k k' then (k, v) :: rest else (k', v') :: set_prop k v rest
  end.

(** The members of an object after its opening brace. *)
Fixpoint members (o : Obj) (ts : list token) : option (Obj * list token) :=
  match ts with
  | TStr k :: Colon :: TStr v :: Comma :: rest =>
      match rest with
      | TStr _ :: _ => members (set_prop k v o) rest
      | _ => None
      end
  | TStr k :: Colon :: TStr v :: RBrace :: rest => Some (set_prop k v o, rest)
  | _ => None
  end.

Definition element (ts : list token) : option (Element * list token) :=
  match ts with
  | TNull :: rest => Some (None, rest)
  | LBrace :: RBrace :: rest => Some (Some [], rest)
  | LBrace :: rest =>
      match members [] rest with
      | Some (o, rest') => Some (Some o, rest')
      | None => None
      end
  | _ => None
  end.

(** The elements of an array after its opening bracket, up to the end of
    the text. *)
Fixpoint elements (fuel : nat) (ts : list token) : option (list Element) :=
  match fuel with
  | O => None
  | S fuel' =>
      match element ts with
      | Some (e, [RBrack]) => Some [e]
      | Some (e, Comma :: rest) =>
          match elements fuel' rest with
          | Some es => Some (e :: es)
          | None => None
          end
      | _ => None
      end
  end.

(** Modelled from the spec: the JSON parse of [@/lib/json-helper], "attempt
    to parse the raw text as a JSON array".  The grammar is that of the
    arrays the prompts ask for: elements are [null] or objects whose
    property values are strings; escapes are the single-character ones. *)
Definition parse_array (text : string) : option (list Element) :=
  match lex Outside text with
  | Some [LBrack; RBrack] => Some []
  | Some (LBrack :: ts) => elements (List.length ts) ts
  | _ => None
  end.

(** Modelled from the spec: the first repair of [@/lib/json-helper], "locating
    the first [ and the last ] in the text and slicing between them". *)
Fixpoint from_first_open (s : string) : option string :=
  match s with
  | EmptyString => None
  | String c t => if Ascii.eqb c "[" then Some s else from_first_open t
  end.

Fixpoint upto_last_close (s : string) : option string :=
  match s with
  | EmptyString => None
  | String c t =>
      match upto_last_close t with
      | Some r => Some (String c r)
      | None => if Ascii.eqb c "]" then Some (String c EmptyString) else None
      end
  end.

Definition slice_array (s : string) : string :=
  match from_first_open s with
  | Some s' => match upto_last_close s' with Some r => r | None => s end
  | None => s
  end.

(** Modelled from the spec: the second repair of [@/lib/json-helper], "strip
    code-fence markers if present" (three backquotes, and the language tag
    [json] after them). *)
Fixpoint strip_fences (s : string) : string :=
  match s with
  | String "`" (String "`" (String "`" t)) =>
      match t with
      | String "j" (String "s" (String "o" (String "n" t'))) => strip_fences t'
      | _ => strip_fences t
      end
  | String c t => String c (strip_fences t)
  | EmptyString => EmptyString
  end.

(** Modelled from the spec: the third repair of [@/lib/json-helper],
    "normalize single-quoted keys/values to double-quoted (only outside of
    already-double-quoted strings)". *)
Fixpoint normalize_quotes (in_double escaped : bool) (s : string) : string :=
  match s with
  | EmptyString => EmptyString
  | String c t =>
      if in_double then
        if escaped then String c (normalize_quotes true false t)
        else if Ascii.eqb c "\" then String c (normalize_quotes true true t)
        else if Ascii.eqb c dquote then String c (normalize_quotes false false t)
        else String c (normalize_quotes true false t)
      else if Ascii.eqb c dquote then String c (normalize_quotes true false t)
      else if Ascii.eqb c "'" then String dquote (normalize_quotes false false t)
      else String c (normalize_quotes false false t)
  end.

(** Modelled from the spec: the fourth repair of [@/lib/json-helper], "remove
    trailing commas before a closing ] or }". *)
Fixpoint closes (s : string) : bool :=
  match s with
  | EmptyString => false
  | String c t =>
      if is_ws c then closes t else Ascii.eqb c "]" || Ascii.eqb c "}"
  end.

Fixpoint remove_trailing_commas (s : string) : string :=
  match s with
  | EmptyString => EmptyString
  | String c t =>
      if Ascii.eqb c "," && closes t then remove_trailing_commas t
      else String c (remove_trailing_commas t)
  end.

(** The text as it is, then after each repair in turn. *)
Definition attempts (text : string) : list string :=
  let r1 := slice_array text in
  let r2 := strip_fences r1 in
  let r3 := normalize_quotes false false r2 in
  let r4 := remove_trailing_commas r3 in
  [text; r1; r2; r3; r4].

Fixpoint first_success (texts : list string) : list Element :=
  match texts with
  | [] => []
  | s :: rest =>
      match parse_array s with
      | Some a => a
      | None => first_success rest
      end
  end.

(** Modelled from the spec: [parseAIResponse] of [@/lib/json-helper], whose
    source is not part of the routes: "re-attempt JSON parse after each
    repair; stop at first success; if all repair attempts fail, extraction
    phase yields an empty array (never an error)". *)
Definition parseAIResponse (text : string) : Outcome (list Element) :=
  Returned (first_success (attempts text)).

End JsonHelper.

(** The specification's worked responses. *)
Module Samples.
Import Model.

Definition e1 : Email :=
  {| id := "e1"; subject := "Invoice due"; sender := "billing@example.com";
     date := "2024-07-30";
     snippet := "Please pay the attached invoice by Friday";
     body := None; labels := ["INBOX"]; theme := None; category := None |}.

Definition e2 : Email :=
  {| id := "e2"; subject := "Team MEETING"; sender := "lead@example.com";
     date := "2024-07-31"; snippet := "Agenda attached";
     body := Some "See you at ten"; labels := []; theme := Some "work";
     category := None |}.

(** A lowering for the examples: it folds the letters A to Z, as
    [toLowerCase] does on text made of ASCII characters. *)
Definition fold_letter (c : ascii) : ascii :=
  let n := nat_of_ascii c in
  if (Nat.leb 65 n && Nat.leb n 90)%bool then ascii_of_nat (n + 32) else c.

Fixpoint ascii_fold (s : string) : string :=
  match s with
  | EmptyString => EmptyString
  | String c t => String (fold_letter c) (ascii_fold t)
  end.

(** The letters WOR followed by the Kelvin sign (U+212A, three bytes in
    UTF-8), and a lowering that also maps that sign to k. *)
Definition kelvin : string :=
  String (ascii_of_nat 226) (String (ascii_of_nat 132)
    (String (ascii_of_nat 170) EmptyString)).

Definition wor_kelvin : string := ("WOR" ++ kelvin)%string.

Fixpoint kelvin_fold (s : string) : string :=
  match s with
  | EmptyString => EmptyString
  | String c t =>
      if String.prefix kelvin s
      then match t with
           | String _ (String _ t') => String "k" (kelvin_fold t')
           | _ => String (fold_letter c) (kelvin_fold t)
           end
      else String (fold_letter c) (kelvin_fold t)
  end.

Definition refusal : string := "not sure, I can't help with that".

Definition fenced : string :=
  "Here you go: ```json [{'title':'Team MEETING','description':'bring notes',}] ```".

Definition reply_task : string := "[{'title':'Reply to client'}]".

Definition page0 : Tasks.Page :=
  {| Tasks.emails := [e1]; Tasks.selectedEmails := ["e1"];
     Tasks.page_tasks := [] |}.

Definition backend_with (reply : option string) : Backend :=
  {| list_ok := true; chat := fun _ _ => ChatMessage reply |}.

(** A backend that gives the same replies as [backend_with reply], from a
    table of its own. *)
Definition backend_replaying (reply : option string) : Backend :=
  {| list_ok := true;
     chat := fun n _ =>
       nth n (repeat (ChatMessage reply) 8) (ChatMessage reply) |}.

Definition backend_down : Backend :=
  {| list_ok := false; chat := fun _ _ => ChatThrows |}.

End Samples.

(** ** Order-preserving selection *)
Module Shape.

(** [subseq xs ys]: [xs] is [ys] with some elements left out, order kept. *)
Inductive subseq {A : Type} : list A -> list A -> Prop :=
  | subseq_nil : subseq [] []
  | subseq_keep (x : A) (xs ys : list A) :
      subseq xs ys -> subseq (x :: xs) (x :: ys)
  | subseq_drop (y : A) (xs ys : list A) :
      subseq xs ys -> subseq xs (y :: ys).

End Shape.

(** ** The to-do page: selection, task list, filters, statistics *)
Module TodoPage.
Import Js Model Tasks.

(** [task.id === taskId] on ids of the form [`task-${Date.now()}-${index}`]. *)
Definition id_eqb (a b : nat * nat) : bool :=
  Nat.eqb (fst a) (fst b) && Nat.eqb (snd a) (snd b).

Definition status (t : TodoTask) : option string := prop "status" (t_props t).
Definition type_of (t : TodoTask) : option string := prop "type" (t_props t).
Definition priority (t : TodoTask) : option string :=
  prop "priority" (t_props t).

(** [value === 'literal'] on a possibly undefined string. *)
Definition is_literal (v : option string) (literal : string) : bool :=
  match v with
  | Some s => String.eqb s literal
  | None => false
  end.

(** [toggleEmailSelection]: the updater passed to [setSelectedEmails]. *)
Definition toggleEmailSelection (emailId : string) (prev : list string)
  : list string :=
  if existsb (fun id => String.eqb id emailId) prev
  then filter (fun id => negb (String.eqb id emailId)) prev
  else prev ++ [emailId].

(** [{ ...task, status: s }] *)
Definition with_status (s : string) (task : TodoTask) : TodoTask :=
  {| t_props := JsonHelper.set_prop "status" s (t_props task);
     t_id := t_id task; t_createdAt := t_createdAt task;
     t_aiGenerated := t_aiGenerated task |}.

(** [toggleTaskStatus]: the updater passed to [setTasks]. *)
Definition toggleTaskStatus (taskId : nat * nat) (prev : list TodoTask)
  : list TodoTask :=
  map (fun task =>
         if id_eqb (t_id task) taskId
         then with_status
                (if is_literal (status task) "completed" then "pending"
                 else "completed") task
         else task)
      prev.

(** [deleteTask] *)
Definition deleteTask (taskId : nat * nat) (prev : list TodoTask)
  : list TodoTask :=
  filter (fun task => negb (id_eqb (t_id task) taskId)) prev.

(** [filteredTasks] *)
Definition filteredTasks (filterType filterPriority filterStatus : string)
    (tasks : list TodoTask) : list TodoTask :=
  filter (fun task =>
            let typeMatch :=
              String.eqb filterType "all" || is_literal (type_of task) filterType in
            let priorityMatch :=
              String.eqb filterPriority "all"
              || is_literal (priority task) filterPriority in
            let statusMatch :=
              String.eqb filterStatus "all" || is_literal (status task) filterStatus in
            typeMatch && priorityMatch && statusMatch)
         tasks.

Record Stats := mkStats {
  total : nat;
  completed : nat;
  pending : nat;
  inProgress : nat;
  urgent : nat
}.

(** [getTaskStats] *)
Definition getTaskStats (tasks : list TodoTask) : Stats :=
  {| total := List.length tasks;
     completed :=
       List.length (filter (fun t => is_literal (status t) "completed") tasks);
     pending := List.length (filter (fun t => is_literal (status t) "pending") tasks);
     inProgress :=
       List.length (filter (fun t => is_literal (status t) "in-progress") tasks);
     urgent := List.length (filter (fun t => is_literal (priority t) "urgent") tasks)
  |}.

End TodoPage.

(** ** The organise page: loading, filter, pages, categorise button *)
Module OrganizePage.
Import Js Model.

Definition itemsPerPage : nat := 10.

(** [xs.slice(i, j)] for indices that are not negative. *)
Definition slice_list {A : Type} (i j : nat) (xs : list A) : list A :=
  firstn (j - i) (skipn i xs).

(** [loadEmails]: what [setEmails] receives for the emails of [/api/emails]. *)
Definition loadEmails (emails : list Email) : list CategorizedEmail :=
  map (fun email => spread_with email "uncategorized" "general") emails.

Section Lowering.

(** [String.prototype.toLowerCase] *)
Variable toLowerCase : string -> string.

(** The predicate of the search filter. *)
Definition matches_search (searchTerm : string) (email : CategorizedEmail)
  : bool :=
  includes (toLowerCase (c_subject email)) (toLowerCase searchTerm)
  || includes (toLowerCase (c_sender email)) (toLowerCase searchTerm)
  || includes (toLowerCase (c_snippet email)) (toLowerCase searchTerm).

(** [filterEmails]: the values given to [setFilteredEmails] and
    [setCurrentPage]. *)
Definition filterEmails (emails : list CategorizedEmail)
    (searchTerm selectedTheme : string) : list CategorizedEmail * nat :=
  let filtered :=
    if truthy searchTerm then filter (matches_search searchTerm) emails
    else emails in
  let filtered :=
    if negb (String.eqb selectedTheme "all")
    then filter (fun email => String.eqb (c_theme email) selectedTheme)
                filtered
    else filtered in
  (filtered, 1).

End Lowering.

Definition paginatedEmails (currentPage : nat)
    (filteredEmails : list CategorizedEmail) : list CategorizedEmail :=
  slice_list ((currentPage - 1) * itemsPerPage) (currentPage * itemsPerPage)
             filteredEmails.

(** [Math.ceil(filteredEmails.length / itemsPerPage)] *)
Definition totalPages (filteredEmails : list CategorizedEmail) : nat :=
  (List.length filteredEmails + (itemsPerPage - 1)) / itemsPerPage.

(** The updaters of the Previous and Next buttons. *)
Definition previous (prev : nat) : nat := Nat.max 1 (prev - 1).
Definition next (total prev : nat) : nat := Nat.min total (prev + 1).

(** The two numbers of the line "Showing .. to .. of .. emails". *)
Definition showing_from (currentPage : nat) : nat :=
  (currentPage - 1) * itemsPerPage + 1.
Definition showing_to (currentPage : nat)
    (filteredEmails : list CategorizedEmail) : nat :=
  Nat.min (currentPage * itemsPerPage) (List.length filteredEmails).



End OrganizePage.

(** ** Shapes of parsed elements *)
Module Elements.
Import Js Model.

(** An element has no usable title: it is falsy, or its title is absent or
    empty. *)
Definition untitled (el : Element) : Prop :=
  match el with
  | Some o => or_else (prop "title" o) EmptyString = EmptyString
  | None => True
  end.

End Elements.

(** Further sample data. *)
Module MoreSamples.
Import Model.

(** A reply in the very format the categorise prompt gives as example. *)
Definition schema_reply : string :=
  "[{'id':'e1','theme':'work','category':'meeting'}]".

(** A backend whose chat calls throw from call [k] on. *)
Definition backend_failing_from (k : nat) (reply : option string) : Backend :=
  {| list_ok := true;
     chat := fun n _ => if Nat.ltb n k then ChatMessage reply else ChatThrows |}.

End MoreSamples.

(** ** The emails route ([api/emails]) and the status route
    ([api/auth/status]) *)
Module EmailsRoute.
Import Js Model.

Record Header := mkHeader {
  h_name : string;
  h_value : string
}.

(** The message resource Gmail returns for one id. *)
Record EmailData := mkMessage {
  m_id : string;
  m_threadId : string;
  m_headers : option (list Header);     (* [payload?.headers] *)
  m_snippet : option string;
  m_labelIds : option (list string);
  m_internalDate : string;
  m_sizeEstimate : nat
}.

(** [interface Email] of this route. *)
Record FetchedEmail := mkFetched {
  f_id : string;
  f_threadId : string;
  f_subject : string;
  f_sender : string;
  f_recipient : string;
  f_date : string;
  f_snippet : string;
  f_labels : list string;
  f_internalDate : string;
  f_sizeEstimate : nat
}.

(** A [fetch] and the reading of its answer: the call or the reading
    throws, or the answer has [ok] false, or it has this body. *)
Inductive Fetch (A : Type) :=
  | FetchThrows
  | FetchNotOk
  | FetchOk (data : A).
Arguments FetchThrows {A}.
Arguments FetchNotOk {A}.
Arguments FetchOk {A} data.

(** Gmail: the list call answers with the ids of [listData.messages], if
    that property is there; the [n]-th detail call answers for an id. *)
Record Gmail := mkGmail {
  list_messages : Fetch (option (list string));
  get_message : nat -> string -> Fetch EmailData
}.

(** The calls made to Gmail: the list call with the [after:] date and the
    [maxResults] of its query, and the detail call for an id. *)
Inductive GmailCall (Num : Type) :=
  | ListCall (after : string) (maxResults : Num)
  | GetCall (messageId : string).
Arguments ListCall {Num} after maxResults.
Arguments GetCall {Num} messageId.

(** [headers.reduce((acc, header) => { acc[header.name] = header.value;
    return acc }, {})] *)
Definition headerMap (headers : list Header) : Obj :=
  fold_left (fun acc header =>
               JsonHelper.set_prop (h_name header) (h_value header) acc)
            headers [].

(** The object literal assigned to [email]. *)
Definition email_of (emailData : EmailData) : FetchedEmail :=
  let headers := match m_headers emailData with Some h => h | None => [] end in
  let map := headerMap headers in
  {| f_id := m_id emailData;
     f_threadId := m_threadId emailData;
     f_subject := or_else (prop "Subject" map) "No Subject";
     f_sender := or_else (prop "From" map) "Unknown";
     f_recipient := or_else (prop "To" map) "Unknown";
     f_date := or_else (prop "Date" map) "Unknown";
     f_snippet := or_else (m_snippet emailData) EmptyString;
     f_labels := match m_labelIds emailData with Some l => l | None => [] end;
     f_internalDate := m_internalDate emailData;
     f_sizeEstimate := m_sizeEstimate emailData |}.

(** [for (const message of messages) { try { ... } catch { } }]: a detail
    call that throws or answers without [ok] leaves the list as it is. *)
Fixpoint fetch_all (g : Gmail) (n : nat) (messages : list string)
    (emails : list FetchedEmail) : list FetchedEmail :=
  match messages with
  | [] => emails
  | messageId :: rest =>
      match get_message g n messageId with
      | FetchOk emailData =>
          fetch_all g (S n) rest (emails ++ [email_of emailData])
      | _ => fetch_all g (S n) rest emails
      end
  end.

(** The JSON body of a successful answer; the window ([daysBack],
    [maxResults]) is reported only when there were messages. *)
Record Payload (Num : Type) := mkPayload {
  success : bool;
  emails : list FetchedEmail;
  total : nat;
  window : option (Num * Num)
}.
Arguments mkPayload {Num} success emails total window.
Arguments success {Num} p.
Arguments emails {Num} p.
Arguments total {Num} p.
Arguments window {Num} p.

Section Platform.

(** The numbers [parseInt] reads from [DAYS_BACK] and [MAX_RESULTS], [NaN]
    included. *)
Variable Num : Type.

(** The date filter: [new Date()], [setDate(getDate() - daysBack)],
    [toISOString().split('T')[0]].  [None] when [toISOString] throws, as it
    does for a date that is not valid. *)
Variable date_after : Num -> option string.

(** [GET]: cookie, date filter, list call, detail calls. *)
Definition GET (g : Gmail) (daysBack maxResults : Num)
    (accessToken : option string)
  : Response (Payload Num) * list (GmailCall Num) :=
  match accessToken with
  | None => (Failure 401 "Not authenticated", [])
  | Some _ =>
      match date_after daysBack with
      | None => (Failure 500 "Failed to retrieve emails", [])
      | Some dateStr =>
          let listCall := ListCall dateStr maxResults in
          match list_messages g with
          | FetchThrows =>
              (Failure 500 "Failed to retrieve emails", [listCall])
          | FetchNotOk =>
              (Failure 500 "Failed to retrieve email list", [listCall])
          | FetchOk listData =>
              let messages :=
                match listData with Some m => m | None => [] end in
              match messages with
              | [] =>
                  (Ok200 {| success := true; emails := []; total := 0;
                            window := None |},
                   [listCall])
              | _ =>
                  let emails := fetch_all g 0 messages [] in
                  (Ok200 {| success := true; emails := emails;
                            total := List.length emails;
                            window := Some (daysBack, maxResults) |},
                   listCall :: map GetCall messages)
              end
          end
      end
  end.

End Platform.

(** *** [api/auth/status] *)

Record Cookies := mkCookies {
  access_token : option string;
  refresh_token : option string
}.

(** [GET] of the status route: the [authenticated] flag of the answer, the
    cookies afterwards, and the number of profile calls made. *)
Definition status_GET (profile : Fetch unit) (cookieStore : Cookies)
  : bool * Cookies * nat :=
  match access_token cookieStore with
  | None => (false, cookieStore, 0)
  | Some _ =>
      match profile with
      | FetchThrows => (false, cookieStore, 1)
      | FetchNotOk =>
          (false, {| access_token := None; refresh_token := None |}, 1)
      | FetchOk _ => (true, cookieStore, 1)
      end
  end.

End EmailsRoute.

From Stdlib Require Import DecimalString.

(** ** The assistant routes ([api/organize/assistant], [api/todo/assistant]) *)
Module Assistant.
Import Js Model.

Definition nl : string := Tasks.nl.

Inductive Role := System | User | AssistantRole.

(** One entry of the [messages] array. *)
Record Msg := mkMsg {
  role : Role;
  content : string
}.

(** The chat service of a route: its [n]-th call answers a message list. *)
Definition ChatService := nat -> list Msg -> ChatResult.

(** [history.slice(-10)] *)
Definition last_ten {A : Type} (history : list A) : list A :=
  skipn (List.length history - 10) history.

(** [String(n)] for an index. *)
Definition decimal (n : nat) : string := NilZero.string_of_uint (Nat.to_uint n).

Definition no_answer : string :=
  "I apologize, but I couldn't process your request.".

(** *** The organise assistant (the OpenAI and the Ollama variant) *)

(** The template literal assigned to [systemPrompt]. *)
Definition systemPrompt (email : Email) (tone : option string) : string :=
  ("You are an intelligent email assistant. You help users understand and respond to their emails. "
   ++ nl ++ "    " ++ nl
   ++ "Current email context:" ++ nl
   ++ "- Subject: " ++ subject email ++ nl
   ++ "- From: " ++ sender email ++ nl
   ++ "- Date: " ++ date email ++ nl
   ++ "- Content: " ++ or_else (body email) (snippet email) ++ nl
   ++ "- Labels: " ++ join ", " (labels email) ++ nl
   ++ "- Theme: " ++ or_else (theme email) "uncategorized" ++ nl
   ++ "- Category: " ++ or_else (category email) "general" ++ nl ++ nl
   ++ "Tone preference: " ++ template tone ++ nl ++ nl
   ++ "Provide helpful, contextual responses about the email. Be concise but informative.")%string.

(** The template literal assigned to [draftPrompt]. *)
Definition draftPrompt (email : Email) (question : string)
    (tone : option string) : string :=
  ("Based on the email context and the user's request, generate a professional draft response. "
   ++ nl ++ "      " ++ nl
   ++ "Email: " ++ subject email ++ " from " ++ sender email ++ nl
   ++ "Content: " ++ or_else (body email) (snippet email) ++ nl
   ++ "User request: " ++ question ++ nl
   ++ "Tone: " ++ template tone ++ nl ++ nl
   ++ "Generate a draft email response that is:" ++ nl
   ++ "- Contextually appropriate" ++ nl
   ++ "- Matches the requested tone" ++ nl
   ++ "- Professional and well-structured" ++ nl
   ++ "- Ready to be edited by the user")%string.

(** The messages of the first chat call: the system prompt, the last ten
    messages of the history, the question. *)
Definition messages_of (email : Email) (question : string)
    (tone : option string) (conversationHistory : option (list Msg))
  : list Msg :=
  [ {| role := System; content := systemPrompt email tone |} ]
  ++ match conversationHistory with
     | Some history =>
         map (fun msg => {| role := role msg; content := content msg |})
             (last_ten history)
     | None => []
     end
  ++ [ {| role := User; content := question |} ].

Section Lowering.

(** [String.prototype.toLowerCase] *)
Variable toLowerCase : string -> string.

(** The question asks for a reply. *)
Definition wants_draft (question : string) : bool :=
  includes (toLowerCase question) "reply"
  || includes (toLowerCase question) "respond"
  || includes (toLowerCase question) "draft".

Definition draft_messages (email : Email) (question : string)
    (tone : option string) : list Msg :=
  [ {| role := System;
       content := "You are an expert email writer. Generate professional, contextual email responses." |};
    {| role := User; content := draftPrompt email question tone |} ].

(** [POST] of the organise assistant.  [apiKey] is
    [process.env.OPENAI_API_KEY], which both variants require; [service]
    is [openai.chat.completions.create] in one and [ollama.chat] in the
    other.  The answer carries [response] and [draftResponse]. *)
Definition POST (apiKey : option string) (service : ChatService)
    (question : option string) (email : option Email) (tone : option string)
    (conversationHistory : option (list Msg))
  : Response (string * string) * list (list Msg) :=
  if negb (truthy (or_else apiKey EmptyString)) then
    (Failure 500 "OpenAI API key not configured", [])
  else
    match email, question with
    | Some email, Some question =>
        if truthy question then
          let messages := messages_of email question tone conversationHistory in
          match service 0 messages with
          | ChatThrows =>
              (Failure 500 "Failed to process assistant request", [messages])
          | ChatMessage reply =>
              let response := or_else reply no_answer in
              if wants_draft question then
                let draft := draft_messages email question tone in
                match service 1 draft with
                | ChatThrows =>
                    (Failure 500 "Failed to process assistant request",
                     [messages; draft])
                | ChatMessage draftReply =>
                    (Ok200 (response, or_else draftReply EmptyString),
                     [messages; draft])
                end
              else (Ok200 (response, EmptyString), [messages])
          end
        else (Failure 400 "Email and question are required", [])
    | _, _ => (Failure 400 "Email and question are required", [])
    end.

End Lowering.

(** *** The to-do assistant *)

(** One entry of the context for a selected email. *)
Definition email_entry (index : nat) (email : Email) : string :=
  let shown :=
    if truthy (snippet email) then Some (snippet email) else body email in
  (decimal (index + 1) ++ ". Subject: " ++ subject email ++ nl
   ++ "   From: " ++ sender email ++ nl
   ++ "   Content: " ++ template shown ++ nl ++ nl)%string.

(** One entry of the context for a task. *)
Definition task_entry (index : nat) (task : Obj) : string :=
  (decimal (index + 1) ++ ". " ++ template (prop "title" task)
   ++ " (" ++ template (prop "type" task) ++ ", "
   ++ template (prop "priority" task) ++ ", "
   ++ template (prop "status" task) ++ ")" ++ nl
   ++ "   " ++ template (prop "description" task) ++ nl ++ nl)%string.

(** [xs.forEach((x, index) => { context += entry(index, x) })] *)
Fixpoint append_entries {A : Type} (entry : nat -> A -> string) (index : nat)
    (xs : list A) (context : string) : string :=
  match xs with
  | [] => context
  | x :: rest =>
      append_entries entry (S index) rest (context ++ entry index x)%string
  end.

Definition build_context (selectedEmails : option (list Email))
    (tasks : option (list Obj)) : string :=
  let context := EmptyString in
  let context :=
    match selectedEmails with
    | Some (e :: es) =>
        append_entries email_entry 0 (e :: es)
          (context ++ nl ++ "Selected Emails:" ++ nl)%string
    | _ => context
    end in
  match tasks with
  | Some (t :: ts) =>
      append_entries task_entry 0 (t :: ts)
        (context ++ nl ++ "Current Tasks:" ++ nl)%string
  | _ => context
  end.

Definition todo_system (tone : option string) : string :=
  ("You are an AI task management assistant. You help users manage their email-based tasks and workflows. You can:"
   ++ nl ++ nl
   ++ "1. Analyze emails and suggest appropriate actions" ++ nl
   ++ "2. Help prioritize tasks based on urgency and importance" ++ nl
   ++ "3. Suggest team assignments and workflows" ++ nl
   ++ "4. Provide guidance on task management best practices" ++ nl
   ++ "5. Answer questions about email content and required follow-ups" ++ nl
   ++ "6. Help create action plans for complex email situations" ++ nl ++ nl
   ++ "Always provide practical, actionable advice. Be "
   ++ or_else tone "professional" ++ " in your tone.")%string.

Definition fullQuestion (question context : string) : string :=
  (question ++ nl ++ nl ++ "Context:" ++ context)%string.

Definition todo_messages (question : string)
    (selectedEmails : option (list Email)) (tasks : option (list Obj))
    (tone : option string) (conversationHistory : option (list Msg))
  : list Msg :=
  [ {| role := System; content := todo_system tone |} ]
  ++ match conversationHistory with
     | Some history =>
         map (fun msg => {| role := role msg; content := content msg |})
             (last_ten history)
     | None => []
     end
  ++ [ {| role := User;
          content := fullQuestion question
                       (build_context selectedEmails tasks) |} ].

(** The [context] object of the answer. *)
Definition count {A : Type} (xs : option (list A)) : nat :=
  match xs with Some l => List.length l | None => 0 end.

(** [POST] of the to-do assistant: the answer carries [response] and the
    two counts; the log lists the probe and the chat call. *)
Inductive TodoCall :=
  | TodoProbe
  | TodoChat (messages : list Msg).

Definition todo_POST (probe_ok : bool) (service : ChatService)
    (question : option string) (selectedEmails : option (list Email))
    (tasks : option (list Obj)) (tone : option string)
    (conversationHistory : option (list Msg))
  : Response (string * (nat * nat)) * list TodoCall :=
  if negb (truthy (or_else question EmptyString)) then
    (Failure 400 "No question provided", [])
  else if negb probe_ok then
    (Failure 500 ollama_unavailable, [TodoProbe])
  else
    let messages :=
      todo_messages (or_else question EmptyString) selectedEmails tasks tone
                    conversationHistory in
    match service 0 messages with
    | ChatThrows =>
        (Failure 500 "Failed to process assistant request",
         [TodoProbe; TodoChat messages])
    | ChatMessage reply =>
        (Ok200 (or_else reply no_answer,
                (count selectedEmails, count tasks)),
         [TodoProbe; TodoChat messages])
    end.

End Assistant.

(** ** The OpenAI variants of the categorise and draft routes *)
Module OpenAI.
Import Js Model.

(** What [JSON.parse] returned: [null], or a value whose numeric indices
    hold these elements (an array; any other value holds none that the
    route can use). *)
Inductive Parsed :=
  | ParsedNull
  | ParsedIndexed (elements : list Element).

(** The chat-completion service: its [n]-th call answers a prompt. *)
Definition Completions := nat -> Prompt -> ChatResult.

(** [!process.env.OPENAI_API_KEY] *)
Definition key_missing (apiKey : option string) : bool :=
  negb (truthy (or_else apiKey EmptyString)).

Section Route.

(** [JSON.parse], which the route calls inside [try]/[catch]. *)
Variable JSON_parse : string -> Outcome Parsed.

(** Body of [batch.forEach((email, index) => ...)] for one email. *)
Definition categorize_one (categorization : list Element) (index : nat)
    (email : Email) : CategorizedEmail :=
  match nth_error categorization index with
  | Some (Some categorized) =>
      spread_with email (or_else (prop "theme" categorized) "other")
                        (or_else (prop "category" categorized) "general")
  | _ => Categorize.default_record email
  end.

Fixpoint forEach_push (categorization : list Element) (index : nat)
    (batch : list Email) (categorizedEmails : list CategorizedEmail)
  : list CategorizedEmail :=
  match batch with
  | [] => categorizedEmails
  | email :: rest =>
      forEach_push categorization (S index) rest
        (categorizedEmails ++ [categorize_one categorization index email])
  end.

(** The [try]/[catch] around parsing and merging.  Indexing [null] throws
    at the first email, before anything is pushed. *)
Definition merge (categorizedEmails : list CategorizedEmail)
    (batch : list Email) (responseText : string) : list CategorizedEmail :=
  match JSON_parse responseText with
  | Returned (ParsedIndexed categorization) =>
      forEach_push categorization 0 batch categorizedEmails
  | Returned ParsedNull => Categorize.fallback_push batch categorizedEmails
  | Thrown _ => Categorize.fallback_push batch categorizedEmails
  end.

Definition reconcile (categorizedEmails : list CategorizedEmail)
    (batch : list Email) (content : option string) : list CategorizedEmail :=
  match content with
  | Some responseText =>
      if truthy responseText then merge categorizedEmails batch responseText
      else categorizedEmails
  | None => categorizedEmails
  end.

Fixpoint loop (create : Completions) (emails : list Email) (fuel i n : nat)
    (categorizedEmails : list CategorizedEmail) (log : list Call)
  : option (Response (list CategorizedEmail) * list Call) :=
  if Nat.ltb i (List.length emails) then
    match fuel with
    | O => None
    | S fuel' =>
        let batch := Categorize.slice i (i + Categorize.batchSize) emails in
        let p := CategorizePrompt (map emailData batch) in
        match create n p with
        | ChatThrows =>
            Some (Failure 500 "Failed to categorize emails",
                  log ++ [ChatCall p])
        | ChatMessage content =>
            loop create emails fuel' (i + Categorize.batchSize) (S n)
                 (reconcile categorizedEmails batch content)
                 (log ++ [ChatCall p])
        end
    end
  else Some (Ok200 categorizedEmails, log).

(** [POST] of the categorise route: key, shape of [emails], loop. *)
Definition categorize_POST (apiKey : option string) (create : Completions)
    (emails : EmailsField)
  : option (Response (list CategorizedEmail) * list Call) :=
  if key_missing apiKey then
    Some (Failure 500 "OpenAI API key not configured", [])
  else
    match emails with
    | EmailsFalsy | EmailsNonArray _ =>
        Some (Failure 400 "Invalid emails data", [])
    | EmailsArray emails => loop create emails (List.length emails) 0 0 [] []
    end.

End Route.

(** The record of the email at index [i] of a batch, given the outcome of
    [JSON.parse] on the batch's response text. *)
Definition record_for (outcome : Outcome Parsed) (i : nat) (email : Email)
  : CategorizedEmail :=
  match outcome with
  | Returned (ParsedIndexed cat) => categorize_one cat i email
  | _ => Categorize.default_record email
  end.

(** [POST] of the draft route: key, email, prompt, one call. *)
Definition draft_POST (apiKey : option string) (create : Completions)
    (email : option Email) (tone instructions : option string)
  : Response string * list Call :=
  if key_missing apiKey then
    (Failure 500 "OpenAI API key not configured", [])
  else
    match email with
    | None => (Failure 400 "Email is required", [])
    | Some email =>
        let p := DraftPrompt (Draft.prompt email tone instructions) in
        match create 0 p with
        | ChatThrows =>
            (Failure 500 "Failed to generate draft response", [ChatCall p])
        | ChatMessage content =>
            (Ok200 (or_else content "Unable to generate draft response."),
             [ChatCall p])
        end
    end.

End OpenAI.

(** * Properties *)

(** ** The keyword fallback *)
Module KeywordFacts.
Import Js Keyword.

Lemma prefix_app (k a b : string) :
  String.prefix k a = true -> String.prefix k (a ++ b) = true.
Proof.
  revert a; induction k as [|c k IH]; intros a H.
  - destruct a; destruct b; reflexivity.
  - destruct a as [|d a]; simpl in *; [discriminate|].
    destruct (Ascii.ascii_dec c d); [auto | discriminate].
Qed.

Lemma includes_app_l (a b k : string) :
  includes a k = true -> includes (a ++ b) k = true.
Proof.
  induction a as [|c a IH]; simpl; intros H.
  - rewrite orb_false_r in H. destruct k; [|discriminate].
    destruct b; reflexivity.
  - apply orb_true_iff in H. apply orb_true_iff. destruct H as [H|H].
    + left. exact (prefix_app k (String c a) b H).
    + right. auto.
Qed.

Lemma includes_app_r (a b k : string) :
  includes b k = true -> includes (a ++ b) k = true.
Proof.
  induction a as [|c a IH]; simpl; intros H; [assumption|].
  rewrite (IH H). apply orb_true_r.
Qed.

Ltac rule text k :=
  destruct (includes text k); cbn [orb negb andb]; [try reflexivity | ].

Lemma theme_by_table (text : string) :
  (if includes text "work" || includes text "meeting"
      || includes text "project" || includes text "client" then "work"
   else if includes text "personal" || includes text "family"
      || includes text "friend" then "personal"
   else if includes text "finance" || includes text "money"
      || includes text "payment" || includes text "bill" then "finance"
   else if includes text "shopping" || includes text "purchase"
      || includes text "buy" then "shopping"
   else if includes text "travel" || includes text "trip"
      || includes text "flight" then "travel"
   else if includes text "health" || includes text "medical"
      || includes text "doctor" then "health"
   else if includes text "education" || includes text "course"
      || includes text "learning" then "education"
   else "other")
  = first_match themeRules "other" text.
Proof.
  unfold themeRules; cbn [first_match].
  rule text "work". rule text "meeting". rule text "project".
  rule text "client". rule text "personal". rule text "family".
  rule text "friend". rule text "finance". rule text "money".
  rule text "payment". rule text "bill". rule text "shopping".
  rule text "purchase". rule text "buy". rule text "travel".
  rule text "trip". rule text "flight". rule text "health".
  rule text "medical". rule text "doctor". rule text "education".
  rule text "course". rule text "learning". reflexivity.
Qed.

Lemma first_match_none (rules : list (string * string)) (dflt text : string) :
  forallb (fun r => negb (includes text (fst r))) rules = true ->
  first_match rules dflt text = dflt.
Proof.
  induction rules as [|[kw label] rules IH]; simpl; intros H; [reflexivity|].
  apply andb_true_iff in H. destruct H as [H1 H2].
  destruct (includes text kw); [discriminate | auto].
Qed.

Lemma first_match_no_rule (rules : list (string * string))
    (dflt text : string) :
  (forall kw label, In (kw, label) rules -> includes text kw = false) ->
  first_match rules dflt text = dflt.
Proof.
  intros H. apply first_match_none. apply forallb_forall.
  intros [kw label] I. cbn [fst]. now rewrite (H kw label I).
Qed.

(** C4. Whatever function [toLowerCase] is, the keyword fallback
    classifies the text [`${title} ${description}`.toLowerCase()] by the
    first matching rule of two fixed ordered tables, gives "other" and
    "general" when no rule matches, and gives theme "work" and category
    "meeting" whenever that text contains "meeting".  The letter case of
    the title and description matters only through [toLowerCase]: pairs
    with the same lower-cased text get the same labels. *)
Theorem keyword_fallback_first_match (toLowerCase : string -> string)
    (title description : string) :
  let themes :=
    [ ("work", "work"); ("meeting", "work"); ("project", "work");
      ("client", "work");
      ("personal", "personal"); ("family", "personal");
      ("friend", "personal");
      ("finance", "finance"); ("money", "finance");
      ("payment", "finance"); ("bill", "finance");
      ("shopping", "shopping"); ("purchase", "shopping");
      ("buy", "shopping");
      ("travel", "travel"); ("trip", "travel"); ("flight", "travel");
      ("health", "health"); ("medical", "health"); ("doctor", "health");
      ("education", "education"); ("course", "education");
      ("learning", "education") ] in
  let categories :=
    [ ("meeting", "meeting"); ("project", "project");
      ("client", "client"); ("payment", "payment");
      ("purchase", "purchase"); ("trip", "trip");
      ("medical", "medical"); ("course", "course") ] in
  let text := toLowerCase (title ++ " " ++ description)%string in
  extractThemeFromTask toLowerCase title description
    = first_match themes "other" text
  /\ extractCategoryFromTask toLowerCase title description
     = first_match categories "general" text
  /\ ((forall kw label, In (kw, label) themes -> includes text kw = false) ->
      extractThemeFromTask toLowerCase title description = "other")
  /\ ((forall kw label,
         In (kw, label) categories -> includes text kw = false) ->
      extractCategoryFromTask toLowerCase title description = "general")
  /\ (includes text "meeting" = true ->
      extractThemeFromTask toLowerCase title description = "work"
      /\ extractCategoryFromTask toLowerCase title description = "meeting")
  /\ (forall title' description',
        toLowerCase (title' ++ " " ++ description')%string = text ->
        extractThemeFromTask toLowerCase title' description'
        = extractThemeFromTask toLowerCase title description
        /\ extractCategoryFromTask toLowerCase title' description'
           = extractCategoryFromTask toLowerCase title description).
Proof.
  intros themes categories text.
  assert (T : forall t d,
            extractThemeFromTask toLowerCase t d
            = first_match themes "other"
                (toLowerCase (t ++ " " ++ d)%string))
    by (intros t d; unfold extractThemeFromTask, combined; cbv zeta;
        apply theme_by_table).
  assert (C : forall t d,
            extractCategoryFromTask toLowerCase t d
            = first_match categories "general"
                (toLowerCase (t ++ " " ++ d)%string))
    by reflexivity.
  split; [apply T|]. split; [apply C|].
  split; [|split; [|split]].
  - intros H. rewrite T. now apply first_match_no_rule.
  - intros H. rewrite C. now apply first_match_no_rule.
  - intros H. split.
    + rewrite T. unfold themes; cbn [first_match]. fold text.
      destruct (includes text "work"); [reflexivity | now rewrite H].
    + rewrite C. unfold categories; cbn [first_match]. fold text.
      now rewrite H.
  - intros t d E. rewrite !T, !C. fold text. now rewrite E.
Qed.

Lemma keyword_fallback_first_match_witness :
  (extractThemeFromTask Samples.ascii_fold "Agenda" "Weekly MEETING at ten"
     = "work"
   /\ extractCategoryFromTask Samples.ascii_fold "Agenda"
        "Weekly MEETING at ten" = "meeting")
  /\ extractThemeFromTask Samples.ascii_fold "Lunch" "with Ann" = "other"
  /\ extractCategoryFromTask Samples.ascii_fold "Lunch" "with Ann"
     = "general"
  /\ extractThemeFromTask Samples.ascii_fold "AGENDA" "weekly meeting AT TEN"
     = extractThemeFromTask Samples.ascii_fold "Agenda"
         "Weekly MEETING at ten".
Proof.
  destruct (keyword_fallback_first_match Samples.ascii_fold "Agenda"
              "Weekly MEETING at ten") as (_ & _ & _ & _ & M & L).
  destruct (keyword_fallback_first_match Samples.ascii_fold "Lunch"
              "with Ann") as (_ & _ & NT & NC & _).
  split; [apply M; reflexivity|].
  split; [apply NT|split; [apply NC|]].
  - intros kw label I. cbn [In] in I.
    repeat (destruct I as [I|I]; [injection I as <- <-; reflexivity|]).
    destruct I.
  - intros kw label I. cbn [In] in I.
    repeat (destruct I as [I|I]; [injection I as <- <-; reflexivity|]).
    destruct I.
  - apply (proj1 (L "AGENDA" "weekly meeting AT TEN" eq_refl)).
Defined.

(** The lowering is applied to the whole text: with a lowering that maps the
    Kelvin sign to the letter k, as [toLowerCase] does, a title ending in
    that sign after WOR is a work title. *)
Example kelvin_sign_is_lowered :
  extractThemeFromTask Samples.kelvin_fold Samples.wor_kelvin "party" = "work"
  /\ extractThemeFromTask Samples.ascii_fold "Agenda" "party" = "other".
Proof. split; reflexivity. Qed.

End KeywordFacts.

(** ** Merging one batch *)
Module MergeFacts.
Import Js Keyword Model Categorize Shape.

Lemma subseq_refl {A : Type} (xs : list A) : subseq xs xs.
Proof. induction xs; constructor; assumption. Qed.

Lemma subseq_app_keep {A : Type} (a xs ys : list A) :
  subseq xs ys -> subseq (a ++ xs) (a ++ ys).
Proof. intros H; induction a; simpl; [assumption | now constructor]. Qed.

Lemma subseq_app_drop {A : Type} (a xs ys : list A) :
  subseq xs ys -> subseq xs (a ++ ys).
Proof. intros H; induction a; simpl; [assumption | now constructor]. Qed.

Lemma subseq_map {A B : Type} (f : A -> B) (xs ys : list A) :
  subseq xs ys -> subseq (map f xs) (map f ys).
Proof. induction 1; simpl; constructor; assumption. Qed.

Section Merge.
Variable toLowerCase : string -> string.
Variable parse : string -> Outcome (list Element).

Lemma categorize_one_fields (cat : list Element) (i : nat) (email : Email) :
  record_fields (categorize_one toLowerCase cat i email) = email_fields email.
Proof.
  unfold categorize_one.
  destruct (nth_error cat i) as [[o|]|]; try reflexivity.
  destruct (prop "title" o) as [t|]; try reflexivity.
  destruct (truthy t); reflexivity.
Qed.

Lemma categorize_one_beyond (cat : list Element) (i : nat) (email : Email) :
  List.length cat <= i -> categorize_one toLowerCase cat i email = default_record email.
Proof.
  intros H. unfold categorize_one.
  now rewrite (proj2 (nth_error_None cat i) H).
Qed.

Lemma forEach_push_app (cat : list Element) (batch : list Email) :
  forall i acc,
    forEach_push toLowerCase cat i batch acc = acc ++ forEach_push toLowerCase cat i batch [].
Proof.
  induction batch as [|e rest IH]; intros i acc; simpl.
  - now rewrite app_nil_r.
  - rewrite (IH (S i) (acc ++ _)), (IH (S i) [_]).
    now rewrite <- app_assoc.
Qed.

Lemma forEach_push_cons (cat : list Element) (i : nat) (e : Email)
    (rest : list Email) :
  forEach_push toLowerCase cat i (e :: rest) []
  = categorize_one toLowerCase cat i e :: forEach_push toLowerCase cat (S i) rest [].
Proof. simpl. now rewrite forEach_push_app. Qed.

Lemma forEach_push_nth (cat : list Element) (batch : list Email) :
  forall i j,
    nth_error (forEach_push toLowerCase cat i batch []) j
    = option_map (categorize_one toLowerCase cat (i + j)) (nth_error batch j).
Proof.
  induction batch as [|e rest IH]; intros i j.
  - destruct j; reflexivity.
  - rewrite forEach_push_cons. destruct j as [|j]; simpl.
    + now rewrite Nat.add_0_r.
    + rewrite IH. now replace (S i + j) with (i + S j) by lia.
Qed.

Lemma forEach_push_fields (cat : list Element) (batch : list Email) :
  forall i,
    map record_fields (forEach_push toLowerCase cat i batch []) = map email_fields batch.
Proof.
  induction batch as [|e rest IH]; intros i; [reflexivity|].
  rewrite forEach_push_cons. simpl.
  now rewrite categorize_one_fields, IH.
Qed.

Lemma fallback_push_map (batch : list Email) :
  forall acc, fallback_push batch acc = acc ++ map default_record batch.
Proof.
  induction batch as [|e rest IH]; intros acc; simpl.
  - now rewrite app_nil_r.
  - rewrite IH. now rewrite <- app_assoc.
Qed.

Lemma merge_app (acc : list CategorizedEmail) (batch : list Email)
    (text : string) :
  merge toLowerCase parse acc batch text = acc ++ merge toLowerCase parse [] batch text.
Proof.
  unfold merge. destruct (parse text).
  - apply forEach_push_app.
  - now rewrite !fallback_push_map.
Qed.

Lemma merge_fields (batch : list Email) (text : string) :
  map record_fields (merge toLowerCase parse [] batch text) = map email_fields batch.
Proof.
  unfold merge. destruct (parse text).
  - apply forEach_push_fields.
  - rewrite fallback_push_map. simpl. rewrite map_map. reflexivity.
Qed.

Lemma reconcile_app (acc : list CategorizedEmail) (batch : list Email)
    (content : option string) :
  reconcile toLowerCase parse acc batch content = acc ++ reconcile toLowerCase parse [] batch content.
Proof.
  unfold reconcile. destruct content as [t|]; [|now rewrite app_nil_r].
  destruct (truthy t); [apply merge_app | now rewrite app_nil_r].
Qed.

(** The records of a batch keep the emails' fields; a batch is kept whole
    or left out whole. *)
Lemma reconcile_fields (batch : list Email) (content : option string) :
  map record_fields (reconcile toLowerCase parse [] batch content) = map email_fields batch
  \/ reconcile toLowerCase parse [] batch content = [].
Proof.
  unfold reconcile. destruct content as [t|]; [|now right].
  destruct (truthy t); [left; apply merge_fields | now right].
Qed.

End Merge.
End MergeFacts.

(** ** The batch loop of the categorise route *)
Module LoopFacts.
Import Js Keyword Model Categorize Shape MergeFacts.

Section Loop.
Variable toLowerCase : string -> string.
Variable parse : string -> Outcome (list Element).
Variable b : Backend.
Variable emails : list Email.

Lemma loop_eq (fuel i n : nat) (acc : list CategorizedEmail)
    (log : list Call) :
  loop toLowerCase parse b emails fuel i n acc log
  = if Nat.ltb i (List.length emails) then
      match fuel with
      | O => None
      | S fuel' =>
          let batch := slice i (i + batchSize) emails in
          let p := CategorizePrompt (map emailData batch) in
          match chat b n p with
          | ChatThrows =>
              Some (Failure 500 "Failed to categorize emails",
                    log ++ [ChatCall p])
          | ChatMessage content =>
              loop toLowerCase parse b emails fuel' (i + batchSize) (S n)
                   (reconcile toLowerCase parse acc batch content) (log ++ [ChatCall p])
          end
      end
    else Some (Ok200 acc, log).
Proof. destruct fuel; reflexivity. Qed.

Lemma batches_eq (fuel i : nat) :
  batches fuel i emails
  = if Nat.ltb i (List.length emails) then
      match fuel with
      | O => []
      | S fuel' =>
          slice i (i + batchSize) emails
          :: batches fuel' (i + batchSize) emails
      end
    else [].
Proof. destruct fuel; reflexivity. Qed.

Lemma slice_skipn (i : nat) :
  skipn i emails
  = slice i (i + batchSize) emails ++ skipn (i + batchSize) emails.
Proof.
  unfold slice. replace (i + batchSize - i) with batchSize by lia.
  rewrite (Nat.add_comm i batchSize), <- skipn_skipn.
  now rewrite firstn_skipn.
Qed.

Lemma slice_length (i : nat) :
  i < List.length emails ->
  0 < List.length (slice i (i + batchSize) emails) <= batchSize.
Proof.
  intros H. unfold slice. rewrite length_firstn, length_skipn.
  unfold batchSize. lia.
Qed.

(** With fuel for every remaining email, the batches are the rest of the
    list cut into windows. *)
Lemma batches_concat (fuel : nat) :
  forall i, List.length emails - i <= fuel ->
    concat (batches fuel i emails) = skipn i emails.
Proof.
  induction fuel as [|fuel IH]; intros i H; rewrite batches_eq.
  - destruct (Nat.ltb_spec i (List.length emails)); [lia|].
    simpl. now rewrite skipn_all2.
  - destruct (Nat.ltb_spec i (List.length emails)) as [Hi|Hi].
    + simpl. rewrite IH by (unfold batchSize; lia).
      symmetry. apply slice_skipn.
    + simpl. now rewrite skipn_all2.
Qed.

Lemma batches_sizes (fuel : nat) :
  forall i,
    Forall (fun batch => 0 < List.length batch <= batchSize)
           (batches fuel i emails).
Proof.
  induction fuel as [|fuel IH]; intros i; rewrite batches_eq;
    destruct (Nat.ltb_spec i (List.length emails)) as [Hi|Hi];
    constructor; auto using slice_length.
Qed.

(** The loop always finishes, and calls the model on a prefix of the
    batches, in order; on success on all of them. *)
Lemma loop_log (fuel : nat) :
  forall i n acc log, List.length emails - i <= fuel ->
    exists res k,
      loop toLowerCase parse b emails fuel i n acc log
      = Some (res, log ++ map call_of (firstn k (batches fuel i emails)))
      /\ (forall recs, res = Ok200 recs ->
          firstn k (batches fuel i emails) = batches fuel i emails).
Proof.
  induction fuel as [|fuel IH]; intros i n acc log H;
    rewrite loop_eq, batches_eq;
    destruct (Nat.ltb_spec i (List.length emails)) as [Hi|Hi]; try lia.
  - exists (Ok200 acc), 0. simpl. rewrite app_nil_r. auto.
  - cbv zeta.
    destruct (chat b n _) as [|content].
    + exists (Failure 500 "Failed to categorize emails"), 1. simpl.
      split; [reflexivity | discriminate].
    + destruct (IH (i + batchSize) (S n)
                  (reconcile toLowerCase parse acc (slice i (i + batchSize) emails) content)
                  (log ++ [call_of (slice i (i + batchSize) emails)]))
        as (res & k & E & F); [unfold batchSize; lia|].
      unfold call_of at 1 in E.
      exists res, (S k). rewrite E. simpl. rewrite <- app_assoc. simpl.
      split; [reflexivity|]. intros recs R. now rewrite (F recs R).
  - exists (Ok200 acc), 0. simpl. rewrite app_nil_r. auto.
Qed.

(** The records of a successful run: the accumulator, then the records of
    the answered batches, which keep the emails' fields and order. *)
Lemma loop_records (fuel : nat) :
  forall i n acc log recs log',
    loop toLowerCase parse b emails fuel i n acc log = Some (Ok200 recs, log') ->
    exists kept R,
      recs = acc ++ R
      /\ map record_fields R = map email_fields kept
      /\ subseq kept (skipn i emails).
Proof.
  induction fuel as [|fuel IH]; intros i n acc log recs log' E;
    rewrite loop_eq in E;
    destruct (Nat.ltb_spec i (List.length emails)) as [Hi|Hi];
    try discriminate.
  - inversion E; subst. exists [], []. rewrite app_nil_r.
    rewrite skipn_all2 by lia. repeat split. constructor.
  - cbv zeta in E. destruct (chat b n _) as [|content]; [discriminate|].
    apply IH in E. destruct E as (kept & R & -> & F & S).
    rewrite reconcile_app, <- app_assoc.
    rewrite (slice_skipn i).
    destruct (reconcile_fields toLowerCase parse (slice i (i + batchSize) emails) content)
      as [K|K].
    + exists (slice i (i + batchSize) emails ++ kept),
        (reconcile toLowerCase parse []
           (slice i (i + batchSize) emails) content ++ R).
      rewrite !map_app, K, F. repeat split. now apply subseq_app_keep.
    + exists kept, R. rewrite K. simpl. repeat split; [assumption|].
      now apply subseq_app_drop.
  - inversion E; subst. exists [], []. rewrite app_nil_r.
    rewrite skipn_all2 by lia. repeat split. constructor.
Qed.

(** Each batch is the window of ten emails at its place in the list. *)
Lemma batches_windows (fuel : nat) :
  forall i k batch,
    nth_error (batches fuel i emails) k = Some batch ->
    batch = firstn batchSize (skipn (i + batchSize * k) emails).
Proof.
  induction fuel as [|fuel IH]; intros i k batch N; rewrite batches_eq in N;
    destruct (Nat.ltb i (List.length emails));
    try (destruct k; discriminate).
  destruct k as [|k]; simpl in N.
  - inversion N. unfold slice.
    replace (i + batchSize - i) with batchSize by lia.
    now rewrite Nat.mul_0_r, Nat.add_0_r.
  - rewrite (IH _ _ _ N). f_equal. f_equal. unfold batchSize. lia.
Qed.

(** When the chat call of no batch throws, every batch is sent, in order,
    and the run succeeds. *)
Lemma loop_all_sent (fuel : nat) :
  forall i n acc log, List.length emails - i <= fuel ->
    (forall k batch,
       nth_error (batches fuel i emails) k = Some batch ->
       chat b (n + k) (CategorizePrompt (map emailData batch))
       <> ChatThrows) ->
    exists records,
      loop toLowerCase parse b emails fuel i n acc log
      = Some (Ok200 records, log ++ map call_of (batches fuel i emails)).
Proof.
  induction fuel as [|fuel IH]; intros i n acc log H C;
    rewrite loop_eq; rewrite batches_eq in C |- *;
    destruct (Nat.ltb_spec i (List.length emails)) as [Hi|Hi]; try lia.
  - exists acc. now rewrite app_nil_r.
  - cbv zeta.
    assert (C0 := C 0 _ eq_refl). rewrite Nat.add_0_r in C0.
    destruct (chat b n _) as [|content]; [congruence|].
    destruct (IH (i + batchSize) (S n)
                (reconcile toLowerCase parse acc
                   (slice i (i + batchSize) emails) content)
                (log ++ [ChatCall (CategorizePrompt
                   (map emailData (slice i (i + batchSize) emails)))]))
      as (records & E); [unfold batchSize; lia | |].
    + intros k batch N. replace (S n + k) with (n + S k) by lia.
      now apply C.
    + exists records. rewrite E. cbn [map]. now rewrite <- app_assoc.
  - exists acc. now rewrite app_nil_r.
Qed.

(** With fuel for every remaining email, the email at place [i + j] is
    in batch [j / batchSize], at index [j mod batchSize]. *)
Lemma batches_cover (fuel : nat) :
  forall i j email, List.length emails - i <= fuel ->
    nth_error emails (i + j) = Some email ->
    exists batch,
      nth_error (batches fuel i emails) (j / batchSize) = Some batch
      /\ nth_error batch (j mod batchSize) = Some email.
Proof.
  assert (BS : batchSize <> 0) by (unfold batchSize; lia).
  induction fuel as [|fuel IH]; intros i j email H N; rewrite batches_eq;
    assert (L : i + j < List.length emails)
      by (apply nth_error_Some; congruence);
    destruct (Nat.ltb_spec i (List.length emails)) as [Hi|Hi]; try lia.
  destruct (Nat.lt_ge_cases j batchSize) as [J|J].
  - rewrite Nat.div_small, Nat.mod_small by assumption.
    exists (slice i (i + batchSize) emails). split; [reflexivity|].
    unfold slice. rewrite nth_error_firstn.
    replace (i + batchSize - i) with batchSize by lia.
    destruct (Nat.ltb_spec j batchSize); [|lia].
    now rewrite nth_error_skipn.
  - assert (EJ : exists j', j = j' + 1 * batchSize)
      by (exists (j - batchSize); lia).
    destruct EJ as [j' ->].
    rewrite Nat.div_add, Nat.Div0.mod_add, Nat.add_1_r by assumption.
    cbn [nth_error]. apply IH; [unfold batchSize; lia|].
    rewrite <- N. f_equal. lia.
Qed.

(** When the chat call of a batch throws and that of no earlier batch
    does, the run fails after the calls for the batches up to that one. *)
Lemma loop_first_throw (fuel : nat) :
  forall i n acc log k batch,
    nth_error (batches fuel i emails) k = Some batch ->
    chat b (n + k) (CategorizePrompt (map emailData batch)) = ChatThrows ->
    (forall j earlier,
       j < k ->
       nth_error (batches fuel i emails) j = Some earlier ->
       chat b (n + j) (CategorizePrompt (map emailData earlier))
       <> ChatThrows) ->
    loop toLowerCase parse b emails fuel i n acc log
    = Some (Failure 500 "Failed to categorize emails",
            log ++ map call_of (firstn (S k) (batches fuel i emails))).
Proof.
  induction fuel as [|fuel IH]; intros i n acc log k batch N C E;
    rewrite loop_eq; rewrite batches_eq in N, E |- *;
    destruct (Nat.ltb i (List.length emails));
    try (destruct k; discriminate).
  cbv zeta. destruct k as [|k]; cbn [nth_error] in N.
  - inversion N; subst. rewrite Nat.add_0_r in C. rewrite C. reflexivity.
  - assert (E0 := E 0 _ (Nat.lt_0_succ k) eq_refl).
    rewrite Nat.add_0_r in E0.
    destruct (chat b n _) as [|content]; [congruence|].
    rewrite (IH (i + batchSize) (S n) _ _ k batch N).
    + cbn [firstn map]. now rewrite <- app_assoc.
    + now replace (S n + k) with (n + S k) by lia.
    + intros j earlier J NJ. replace (S n + j) with (n + S j) by lia.
      apply E; [lia | exact NJ].
Qed.

End Loop.
End LoopFacts.

(** ** Requests whose every chat call is answered *)
Module AnsweredFacts.
Import Js Model Shape MergeFacts LoopFacts Categorize.

Section Answered.
Variable toLowerCase : string -> string.
Variable parse : string -> Outcome (list Element).
Variable b : Backend.
Variable emails : list Email.
(** Every chat call returns a message with a non-empty text. *)
Hypothesis answered :
  forall n p, exists t, chat b n p = ChatMessage (Some t) /\ truthy t = true.

Lemma merge_length (batch : list Email) (text : string) :
  List.length (merge toLowerCase parse [] batch text) = List.length batch.
Proof.
  assert (F := merge_fields toLowerCase parse batch text).
  apply (f_equal (@List.length _)) in F. now rewrite !length_map in F.
Qed.

(** The loop then answers with one record per email, in order, and gives
    the default to every email beyond the end of its batch's parsed array. *)
Lemma loop_defaults (fuel : nat) :
  forall i n acc log, List.length emails - i <= fuel ->
    exists R log',
      loop toLowerCase parse b emails fuel i n acc log = Some (Ok200 (acc ++ R), log')
      /\ map record_fields R = map email_fields (skipn i emails)
      /\ forall j email text cat,
           nth_error (skipn i emails) j = Some email ->
           chat b (n + j / batchSize)
             (CategorizePrompt
                (map emailData
                   (slice (i + batchSize * (j / batchSize))
                          (i + batchSize * (j / batchSize) + batchSize)
                          emails)))
             = ChatMessage (Some text) ->
           parse text = Returned cat ->
           List.length cat <= j mod batchSize ->
           nth_error R j = Some (default_record email).
Proof.
  assert (BS : batchSize <> 0) by (unfold batchSize; lia).
  induction fuel as [|fuel IH]; intros i n acc log H; rewrite loop_eq;
    destruct (Nat.ltb_spec i (List.length emails)) as [Hi|Hi]; try lia.
  - exists [], log. rewrite app_nil_r, skipn_all2 by lia.
    repeat split. intros [|j]; discriminate.
  - cbv zeta.
    set (B := slice i (i + batchSize) emails).
    destruct (answered n (CategorizePrompt (map emailData B)))
      as (t & CT & T).
    rewrite CT.
    destruct (IH (i + batchSize) (S n)
                (reconcile toLowerCase parse acc B (Some t))
                (log ++ [ChatCall (CategorizePrompt (map emailData B))]))
      as (R & log' & E & F & D); [unfold batchSize; lia|].
    rewrite E. rewrite reconcile_app, <- app_assoc.
    assert (RB : reconcile toLowerCase parse [] B (Some t) = merge toLowerCase parse [] B t)
      by (unfold reconcile; now rewrite T).
    rewrite RB.
    eexists _, log'. split; [reflexivity|]. split.
    + rewrite map_app, F, (slice_skipn emails i), map_app. f_equal.
      apply merge_fields.
    + intros j email text cat N CH P L.
      rewrite (slice_skipn emails i) in N. fold B in N.
      assert (LB : List.length B <= batchSize)
        by (apply (slice_length emails i Hi)).
      destruct (Nat.lt_ge_cases j (List.length B)) as [J|J].
      * rewrite nth_error_app1 in N by assumption.
        rewrite nth_error_app1 by (rewrite merge_length; assumption).
        rewrite Nat.div_small, Nat.mul_0_r, !Nat.add_0_r in CH by lia.
        fold B in CH. rewrite CT in CH. injection CH as <-.
        rewrite Nat.mod_small in L by lia.
        unfold merge. rewrite P, forEach_push_nth, N. simpl.
        now rewrite categorize_one_beyond.
      * rewrite nth_error_app2 in N by assumption.
        assert (JL : j - List.length B < List.length (skipn (i + batchSize) emails))
          by (apply nth_error_Some; congruence).
        rewrite length_skipn in JL.
        assert (EB : List.length B = batchSize).
        { unfold B, slice. rewrite length_firstn, length_skipn. lia. }
        rewrite EB in *.
        rewrite nth_error_app2 by (rewrite merge_length, EB; assumption).
        rewrite merge_length, EB.
        assert (EJ : j = (j - batchSize) + 1 * batchSize) by lia.
        rewrite EJ in CH, L.
        rewrite Nat.div_add in CH by assumption.
        rewrite Nat.Div0.mod_add in L.
        apply (D (j - batchSize) email text cat N); [|assumption|assumption].
        rewrite <- CH. f_equal; [lia|]. f_equal. f_equal. f_equal; lia.
  - exists [], log. rewrite app_nil_r, skipn_all2 by lia.
    repeat split. intros [|j]; discriminate.
Qed.
End Answered.

End AnsweredFacts.

(** ** The categorise route *)
Module CategorizeFacts.
Import Js Keyword Model Categorize Shape MergeFacts LoopFacts.

Section Route.
Variable toLowerCase : string -> string.
Variable parse : string -> Outcome (list Element).

(** The merge step for a parsed array shorter than its batch. *)
Lemma reconcile_short_array (acc : list CategorizedEmail)
    (batch : list Email) (responseText : string)
    (categorization : list Element) :
  truthy responseText = true ->
  parse responseText = Returned categorization ->
  exists records,
    reconcile toLowerCase parse acc batch (Some responseText) = acc ++ records
    /\ List.length records = List.length batch
    /\ map record_fields records = map email_fields batch
    /\ forall i email,
         List.length categorization <= i ->
         nth_error batch i = Some email ->
         nth_error records i = Some (default_record email).
Proof.
  intros T P. exists (merge toLowerCase parse [] batch responseText).
  unfold reconcile. rewrite T. split; [apply merge_app|].
  assert (F := merge_fields toLowerCase parse batch responseText).
  split; [|split; [exact F|]].
  - apply (f_equal (@List.length _)) in F. now rewrite !length_map in F.
  - intros i email L N. unfold merge. rewrite P, forEach_push_nth, N.
    simpl. now rewrite categorize_one_beyond.
Qed.

(** C2. In a categorisation request with N emails whose chat calls all
    return a non-empty text, the answer has exactly N records, one per
    email in input order, and every email whose position in its batch is
    beyond the end of the array parsed for that batch gets theme "other"
    and category "general", its other fields unchanged. *)
Theorem categorize_short_array_defaults (b : Backend) (emails : list Email) :
  list_ok b = true ->
  (forall n p,
     exists t, chat b n p = ChatMessage (Some t) /\ truthy t = true) ->
  exists records log,
    POST toLowerCase parse b (EmailsArray emails) = Some (Ok200 records, log)
    /\ List.length records = List.length emails
    /\ map record_fields records = map email_fields emails
    /\ map c_id records = map id emails
    /\ forall g email text categorization,
         nth_error emails g = Some email ->
         chat b (g / batchSize)
           (CategorizePrompt
              (map emailData
                 (slice (batchSize * (g / batchSize))
                        (batchSize * (g / batchSize) + batchSize) emails)))
           = ChatMessage (Some text) ->
         parse text = Returned categorization ->
         List.length categorization <= g mod batchSize ->
         exists record,
           nth_error records g = Some record
           /\ c_theme record = "other"
           /\ c_category record = "general"
           /\ c_id record = id email
           /\ c_subject record = subject email
           /\ c_sender record = sender email
           /\ c_date record = date email
           /\ c_snippet record = snippet email
           /\ c_body record = body email
           /\ c_labels record = labels email.
Proof.
  intros OK AN.
  destruct (AnsweredFacts.loop_defaults toLowerCase parse b emails AN
              (List.length emails) 0 0 [] [ProbeCall])
    as (R & log' & E & F & D); [lia|].
  exists R, log'. unfold POST, POST_fuel, enough_fuel. rewrite OK.
  simpl negb. cbv iota. split; [exact E|]. split; [|split; [|split]].
  - apply (f_equal (@List.length _)) in F. now rewrite !length_map in F.
  - exact F.
  - apply (f_equal (map (fun f => fst (fst (fst (fst (fst (fst f)))))))) in F.
    rewrite !map_map in F. exact F.
  - intros g email text categorization N C P L.
    exists (default_record email).
    split; [exact (D g email text categorization N C P L)|].
    repeat split.
Qed.

(** C8. The email list is cut into consecutive windows of ten emails (the
    last may be shorter) whose concatenation is the list: the email at
    place g is in window g / 10, at index g mod 10, and nowhere else.  The
    route always answers, and its chat calls are these windows from the
    first on, in order, one call per window, each with the id, subject,
    sender, snippet and body (or snippet) of its emails: none when the
    probe fails; all of them, with status 200, when the chat call of no
    window throws; and those up to the first window whose chat call
    throws, with status 500, otherwise. *)
Theorem categorize_batches_in_order (b : Backend) (emails : list Email) :
  let windows := batches (List.length emails) 0 emails in
  let prompt := fun batch : list Email =>
    CategorizePrompt
      (map (fun email =>
              {| d_id := id email; d_subject := subject email;
                 d_sender := sender email; d_snippet := snippet email;
                 d_body :=
                   match body email with
                   | Some text => if truthy text then text else snippet email
                   | None => snippet email
                   end |})
           batch) in
  concat windows = emails
  /\ (forall k batch,
        nth_error windows k = Some batch ->
        batch = firstn 10 (skipn (10 * k) emails)
        /\ 0 < List.length batch <= 10)
  /\ (forall g email,
        nth_error emails g = Some email ->
        exists batch,
          nth_error windows (g / 10) = Some batch
          /\ nth_error batch (g mod 10) = Some email)
  /\ (forall k j batch email,
        nth_error windows k = Some batch ->
        nth_error batch j = Some email ->
        j < 10 /\ nth_error emails (10 * k + j) = Some email)
  /\ (exists res k,
        POST toLowerCase parse b (EmailsArray emails)
        = Some (res,
                ProbeCall
                :: map (fun batch => ChatCall (prompt batch))
                       (firstn k windows))
        /\ (forall records, res = Ok200 records -> firstn k windows = windows))
  /\ (list_ok b = false ->
      POST toLowerCase parse b (EmailsArray emails)
      = Some (Failure 500 ollama_unavailable, [ProbeCall]))
  /\ (list_ok b = true ->
      (forall k batch,
         nth_error windows k = Some batch ->
         chat b k (prompt batch) <> ChatThrows) ->
      exists records,
        POST toLowerCase parse b (EmailsArray emails)
        = Some (Ok200 records,
                ProbeCall
                :: map (fun batch => ChatCall (prompt batch)) windows))
  /\ (list_ok b = true ->
      forall k batch,
        nth_error windows k = Some batch ->
        chat b k (prompt batch) = ChatThrows ->
        (forall j earlier,
           j < k ->
           nth_error windows j = Some earlier ->
           chat b j (prompt earlier) <> ChatThrows) ->
        POST toLowerCase parse b (EmailsArray emails)
        = Some (Failure 500 "Failed to categorize emails",
                ProbeCall
                :: map (fun batch => ChatCall (prompt batch))
                       (firstn (S k) windows))).
Proof.
  intros windows prompt.
  assert (W : forall k batch,
            nth_error windows k = Some batch ->
            batch = firstn 10 (skipn (10 * k) emails))
    by (intros k batch N; rewrite (batches_windows emails _ _ _ _ N);
        reflexivity).
  split; [|split; [|split; [|split; [|split; [|split; [|split]]]]]].
  - unfold windows. rewrite batches_concat by lia. reflexivity.
  - intros k batch N. split; [now apply W|].
    assert (F := batches_sizes emails (List.length emails) 0).
    apply nth_error_In in N.
    exact (proj1 (Forall_forall _ _) F batch N).
  - intros g email N.
    apply (batches_cover emails (List.length emails) 0 g email);
      [lia | exact N].
  - intros k j batch email N NJ. rewrite (W k batch N) in NJ.
    rewrite nth_error_firstn in NJ.
    destruct (Nat.ltb_spec j 10) as [J|J]; [|discriminate].
    rewrite nth_error_skipn in NJ. split; assumption.
  - unfold POST, POST_fuel, enough_fuel.
    destruct (list_ok b); simpl negb; cbv iota.
    + destruct (loop_log toLowerCase parse b emails (List.length emails)
                  0 0 [] [ProbeCall]) as (res & k & E & F); [lia|].
      exists res, k. split; [exact E | exact F].
    + exists (Failure 500 ollama_unavailable), 0. split; [reflexivity|].
      discriminate.
  - intros KO. unfold POST, POST_fuel. now rewrite KO.
  - intros OK C. unfold POST, POST_fuel, enough_fuel. rewrite OK.
    simpl negb. cbv iota.
    destruct (loop_all_sent toLowerCase parse b emails (List.length emails)
                0 0 [] [ProbeCall]) as (records & E); [lia | exact C |].
    exists records. exact E.
  - intros OK k batch N C E. unfold POST, POST_fuel, enough_fuel.
    rewrite OK. simpl negb. cbv iota.
    exact (loop_first_throw toLowerCase parse b emails (List.length emails)
             0 0 [] [ProbeCall] k batch N C E).
Qed.

Lemma loop_ext (b1 b2 : Backend) (emails : list Email) :
  (forall n p, chat b1 n p = chat b2 n p) ->
  forall fuel i n acc log,
    loop toLowerCase parse b1 emails fuel i n acc log
    = loop toLowerCase parse b2 emails fuel i n acc log.
Proof.
  intros H. induction fuel as [|fuel IH]; intros i n acc log;
    rewrite !loop_eq; destruct (Nat.ltb i (List.length emails));
    try reflexivity.
  cbv zeta. rewrite H. destruct (chat b2 n _); [reflexivity | apply IH].
Qed.

(** C9. The records a response text yields for a batch are a function of
    the text and the batch alone: whatever was collected before, the same
    records are appended; and two runs of a request in which the backend
    gives the same replies give the same answer. *)
Theorem reconciliation_deterministic (batch : list Email)
    (content : option string) :
  (exists records,
     forall collected,
       reconcile toLowerCase parse collected batch content
       = collected ++ records)
  /\ forall b1 b2 emails,
       list_ok b1 = list_ok b2 ->
       (forall n p, chat b1 n p = chat b2 n p) ->
       POST toLowerCase parse b1 emails = POST toLowerCase parse b2 emails.
Proof.
  split.
  - exists (reconcile toLowerCase parse [] batch content). intros collected.
    apply reconcile_app.
  - intros b1 b2 emails L C. unfold POST, POST_fuel. rewrite L.
    destruct (list_ok b2); simpl negb; cbv iota; [|reflexivity].
    destruct emails as [| |emails]; try reflexivity.
    now apply loop_ext.
Qed.

(** C10. The records of a successful categorisation are, in input order,
    records of emails of the request, each with the email's id, subject,
    sender, date, snippet, body and labels unchanged. *)
Theorem categorize_preserves_email_fields (b : Backend)
    (emails : list Email) (records : list CategorizedEmail)
    (log : list Call) :
  POST toLowerCase parse b (EmailsArray emails) = Some (Ok200 records, log) ->
  exists kept,
    subseq kept emails
    /\ map record_fields records = map email_fields kept.
Proof.
  unfold POST, POST_fuel, enough_fuel.
  destruct (list_ok b); simpl negb; cbv iota; [|discriminate].
  intros E. apply loop_records in E.
  destruct E as (kept & R & -> & F & S).
  exists kept. split; assumption.
Qed.

End Route.

Lemma categorize_short_array_defaults_witness :
  exists records log,
    POST Samples.ascii_fold JsonHelper.parseAIResponse
         (Samples.backend_with (Some Samples.fenced))
         (EmailsArray [Samples.e1; Samples.e2])
      = Some (Ok200 records, log)
    /\ List.length records = 2
    /\ map record_fields records
       = map email_fields [Samples.e1; Samples.e2]
    /\ map c_id records = ["e1"; "e2"]
    /\ forall g email text categorization,
         nth_error [Samples.e1; Samples.e2] g = Some email ->
         chat (Samples.backend_with (Some Samples.fenced)) (g / batchSize)
           (CategorizePrompt
              (map emailData
                 (slice (batchSize * (g / batchSize))
                        (batchSize * (g / batchSize) + batchSize)
                        [Samples.e1; Samples.e2])))
           = ChatMessage (Some text) ->
         JsonHelper.parseAIResponse text = Returned categorization ->
         List.length categorization <= g mod batchSize ->
         exists record,
           nth_error records g = Some record
           /\ c_theme record = "other"
           /\ c_category record = "general"
           /\ c_id record = id email
           /\ c_subject record = subject email
           /\ c_sender record = sender email
           /\ c_date record = date email
           /\ c_snippet record = snippet email
           /\ c_body record = body email
           /\ c_labels record = labels email.
Proof.
  apply (categorize_short_array_defaults Samples.ascii_fold
           JsonHelper.parseAIResponse
           (Samples.backend_with (Some Samples.fenced))
           [Samples.e1; Samples.e2]).
  - reflexivity.
  - intros n p. exists Samples.fenced. split; reflexivity.
Defined.

(** The second email of the sample request has no parsed element. *)
Example second_email_defaulted :
  POST Samples.ascii_fold JsonHelper.parseAIResponse
       (Samples.backend_with (Some Samples.fenced))
       (EmailsArray [Samples.e1; Samples.e2])
  = Some (Ok200 [spread_with Samples.e1 "work" "meeting";
                 default_record Samples.e2],
          [ProbeCall; call_of [Samples.e1; Samples.e2]]).
Proof. reflexivity. Qed.

Lemma reconciliation_deterministic_witness :
  POST Samples.ascii_fold JsonHelper.parseAIResponse
       (Samples.backend_with (Some Samples.fenced))
       (EmailsArray [Samples.e1; Samples.e2])
  = POST Samples.ascii_fold JsonHelper.parseAIResponse
         (Samples.backend_replaying (Some Samples.fenced))
         (EmailsArray [Samples.e1; Samples.e2]).
Proof.
  apply (proj2 (reconciliation_deterministic Samples.ascii_fold
                  JsonHelper.parseAIResponse
                  [Samples.e1] None)).
  - reflexivity.
  - intros n p. simpl.
    do 8 (destruct n as [|n]; [reflexivity|]). destruct n; reflexivity.
Defined.

Lemma categorize_preserves_email_fields_witness :
  exists kept,
    subseq kept [Samples.e1; Samples.e2]
    /\ map record_fields
         [spread_with Samples.e1 "work" "meeting";
          default_record Samples.e2]
       = map email_fields kept.
Proof.
  apply (categorize_preserves_email_fields Samples.ascii_fold
           JsonHelper.parseAIResponse
           (Samples.backend_with (Some Samples.fenced))
           [Samples.e1; Samples.e2] _
           [ProbeCall; call_of [Samples.e1; Samples.e2]]).
  reflexivity.
Defined.

End CategorizeFacts.

(** ** Malformed model output *)
Module MalformedFacts.
Import Js Model Shape MergeFacts LoopFacts.

(** C1. Whatever non-empty text the model returns, neither route answers
    with an error: the task route returns the list the helper extracted
    (empty when nothing can be extracted), and the categorise route returns
    one record per email, even if the helper throws. *)
Theorem malformed_output_never_fatal (b : Backend) (emails : list Email)
    (tone : option string) (responseText : string) :
  list_ok b = true ->
  (forall n p, chat b n p = ChatMessage (Some responseText)) ->
  truthy responseText = true ->
  (emails <> [] ->
   exists tasks,
     Tasks.POST JsonHelper.parseAIResponse b (EmailsArray emails) tone
     = (Ok200 {| Tasks.tasks := tasks;
                 Tasks.generated := List.length tasks;
                 Tasks.from_emails := List.length emails |},
        [ProbeCall; ChatCall (TasksPrompt (Tasks.emailContent emails))]))
  /\ (forall toLowerCase parse,
      exists records log,
        Categorize.POST toLowerCase parse b (EmailsArray emails)
        = Some (Ok200 records, log)
        /\ map record_fields records = map email_fields emails).
Proof.
  intros OK CH T. split.
  - intros NE. destruct emails as [|e rest]; [congruence|].
    eexists. unfold Tasks.POST. rewrite OK, CH. simpl negb. cbv iota.
    unfold Tasks.reconcile. rewrite T. reflexivity.
  - intros toLowerCase parse. unfold Categorize.POST, Categorize.POST_fuel.
    rewrite OK.
    simpl negb. cbv iota. simpl Categorize.enough_fuel.
    destruct (AnsweredFacts.loop_defaults toLowerCase parse b emails
                (fun n p => ex_intro _ responseText (conj (CH n p) T))
                (List.length emails) 0 0 [] [ProbeCall])
      as (R & log' & E & F & _); [lia|].
    exists R, log'. split; assumption.
Qed.

Lemma malformed_output_never_fatal_witness :
  (exists tasks,
     Tasks.POST JsonHelper.parseAIResponse
       (Samples.backend_with (Some Samples.refusal))
       (EmailsArray [Samples.e1]) None
     = (Ok200 {| Tasks.tasks := tasks;
                 Tasks.generated := List.length tasks;
                 Tasks.from_emails := 1 |},
        [ProbeCall; ChatCall (TasksPrompt (Tasks.emailContent [Samples.e1]))]))
  /\ (exists records log,
        Categorize.POST Samples.ascii_fold JsonHelper.parseAIResponse
          (Samples.backend_with (Some Samples.refusal))
          (EmailsArray [Samples.e1])
        = Some (Ok200 records, log)
        /\ map record_fields records = map email_fields [Samples.e1]).
Proof.
  destruct (malformed_output_never_fatal
              (Samples.backend_with (Some Samples.refusal)) [Samples.e1] None
              Samples.refusal eq_refl (fun _ _ => eq_refl) eq_refl)
    as [T C].
  split; [apply T; discriminate | apply C].
Defined.

(** The specification's refusal: no task, and the default record. *)
Example refusal_answers :
  Tasks.POST JsonHelper.parseAIResponse
    (Samples.backend_with (Some Samples.refusal))
    (EmailsArray [Samples.e1]) None
  = (Ok200 {| Tasks.tasks := []; Tasks.generated := 0;
              Tasks.from_emails := 1 |},
     [ProbeCall; ChatCall (TasksPrompt (Tasks.emailContent [Samples.e1]))])
  /\ Categorize.POST Samples.ascii_fold JsonHelper.parseAIResponse
       (Samples.backend_with (Some Samples.refusal))
       (EmailsArray [Samples.e1])
     = Some (Ok200 [Categorize.default_record Samples.e1],
             [ProbeCall; Categorize.call_of [Samples.e1]]).
Proof. split; reflexivity. Qed.

End MalformedFacts.

(** ** The task route and its client *)
Module TasksFacts.
Import Js Model Tasks.

Lemma overridden_not_emailId (k : string) :
  overridden k = true -> String.eqb "emailId" k = false.
Proof.
  unfold overridden. intros H.
  destruct (String.eqb_spec k "id"); [subst; reflexivity|].
  destruct (String.eqb_spec k "createdAt"); [subst; reflexivity|].
  destruct (String.eqb_spec k "aiGenerated"); [subst; reflexivity|].
  discriminate.
Qed.

Lemma prop_emailId_kept (o : Obj) :
  prop "emailId" (filter (fun kv => negb (overridden (fst kv))) o)
  = prop "emailId" o.
Proof.
  induction o as [|[k v] o IH]; [reflexivity|]. cbn [filter fst].
  destruct (overridden k) eqn:O; cbn [negb prop].
  - now rewrite (overridden_not_emailId k O).
  - destruct (String.eqb "emailId" k); [reflexivity | assumption].
Qed.

Lemma prop_own_kept (k : string) (o : Obj) :
  prop k (filter (fun kv => negb (overridden (fst kv))) o)
  = if String.eqb k "id" || String.eqb k "createdAt"
       || String.eqb k "aiGenerated"
    then None
    else prop k o.
Proof.
  change (prop k (filter (fun kv => negb (overridden (fst kv))) o)
          = if overridden k then None else prop k o).
  induction o as [|[k' v] o IH]; [now destruct (overridden k)|].
  cbn [filter fst].
  destruct (overridden k') eqn:O; cbn [negb prop]; rewrite IH.
  - destruct (String.eqb_spec k k') as [->|]; [now rewrite O | reflexivity].
  - destruct (String.eqb_spec k k') as [->|];
      [now rewrite O | reflexivity].
Qed.

Lemma map_index_nth (now : nat) (ts : list Element) :
  forall k i,
    nth_error (map_index now k ts) i
    = option_map (new_task now (k + i)) (nth_error ts i).
Proof.
  induction ts as [|t ts IH]; intros k i.
  - destruct i; reflexivity.
  - destruct i as [|i]; simpl.
    + now rewrite Nat.add_0_r.
    + rewrite IH. now replace (S k + i) with (k + S i) by lia.
Qed.

Lemma map_index_length (now : nat) (ts : list Element) :
  forall k, List.length (map_index now k ts) = List.length ts.
Proof. induction ts; intros k; simpl; [reflexivity | now rewrite IHts]. Qed.

Section Route.
Variable toLowerCase : string -> string.
Variable parse : string -> Outcome (list Element).


(** C3, as the code has it.  The tasks a successful task request returns
    are what the helper returned for the response text, whatever the
    batch.  When the page's generation succeeds, the tasks it stores are
    the tasks it had followed by one task per returned element, in order:
    none is dropped.  The page sets id, createdAt and aiGenerated on each
    and copies every other property of the element unchanged, so a stored
    task carries the emailId the model wrote for it, if any: none is
    assigned. *)
Theorem tasks_are_helper_output (b : Backend) :
  (forall batch tone data log,
     POST parse b (EmailsArray batch) tone = (Ok200 data, log) ->
     exists responseText,
       chat b 0 (TasksPrompt (emailContent batch))
         = ChatMessage (Some responseText)
       /\ parse responseText = Returned (tasks data))
  /\ (forall now tone st st' log,
        generateTasksFromEmails parse b now tone st = (st', None, log) ->
        exists responseText returned added,
          chat b 0 (TasksPrompt (emailContent (selected st)))
            = ChatMessage (Some responseText)
          /\ parse responseText = Returned returned
          /\ fst (POST parse b (EmailsArray (selected st)) (Some tone))
             = Ok200 {| tasks := returned;
                        generated := List.length returned;
                        from_emails := List.length (selected st) |}
          /\ page_tasks st' = page_tasks st ++ added
          /\ List.length added = List.length returned
          /\ forall i task,
               nth_error returned i = Some task ->
               exists t,
                 nth_error added i = Some t
                 /\ t_id t = (now, i)
                 /\ t_createdAt t = now
                 /\ t_aiGenerated t = true
                 /\ (forall k,
                       prop k (t_props t)
                       = if String.eqb k "id" || String.eqb k "createdAt"
                            || String.eqb k "aiGenerated"
                         then None
                         else match task with
                              | Some o => prop k o
                              | None => None
                              end)
                 /\ emailId t
                    = match task with
                      | Some o => prop "emailId" o
                      | None => None
                      end).
Proof.
  assert (R : forall batch tone data log,
            POST parse b (EmailsArray batch) tone = (Ok200 data, log) ->
            exists responseText,
              chat b 0 (TasksPrompt (emailContent batch))
                = ChatMessage (Some responseText)
              /\ parse responseText = Returned (tasks data)
              /\ data = {| tasks := tasks data;
                           generated := List.length (tasks data);
                           from_emails := List.length batch |}).
  { intros batch tone data log E.
    unfold POST in E. destruct batch as [|e rest]; [discriminate|].
    destruct (list_ok b); simpl negb in E; cbv iota in E; [|discriminate].
    destruct (chat b 0 _) as [|[t|]]; try discriminate.
    exists t. split; [reflexivity|].
    unfold reconcile in E.
    destruct (truthy t); [|discriminate].
    destruct (parse t); [|discriminate].
    inversion E. split; reflexivity. }
  split.
  - intros batch tone data log E.
    destruct (R batch tone data log E) as (t & C & P & _).
    exists t. split; assumption.
  - intros now tone st st' log E.
    unfold generateTasksFromEmails in E.
    destruct (selectedEmails st) as [|s0 sel]; [discriminate|].
    destruct (POST parse b (EmailsArray (selected st)) (Some tone))
      as [[data|status error] log'] eqn:Q; [|discriminate].
    injection E as <- <-.
    destruct (R _ _ _ _ Q) as (t & C & P & D).
    exists t, (tasks data), (map_index now 0 (tasks data)).
    split; [exact C|]. split; [exact P|].
    split; [cbn [fst]; exact (f_equal Ok200 D)|].
    split; [reflexivity|]. split; [apply map_index_length|].
    intros i task N. rewrite map_index_nth, N. simpl.
    eexists. split; [reflexivity|].
    split; [reflexivity|]. split; [reflexivity|]. split; [reflexivity|].
    unfold emailId, new_task. cbn [t_props].
    destruct task as [o|].
    + split; [intros k; apply prop_own_kept | apply prop_emailId_kept].
    + split; [|reflexivity]. intros k. cbn [filter prop].
      now destruct (_ || _).
Qed.



End Route.

Lemma tasks_are_helper_output_witness :
  (exists responseText,
     chat (Samples.backend_with (Some Samples.reply_task)) 0
          (TasksPrompt (emailContent [Samples.e1]))
       = ChatMessage (Some responseText)
     /\ JsonHelper.parseAIResponse responseText
        = Returned [Some [("title", "Reply to client")]])
  /\ exists responseText returned added,
       chat (Samples.backend_with (Some Samples.reply_task)) 0
            (TasksPrompt (emailContent (selected Samples.page0)))
         = ChatMessage (Some responseText)
       /\ JsonHelper.parseAIResponse responseText = Returned returned
       /\ fst (POST JsonHelper.parseAIResponse
                 (Samples.backend_with (Some Samples.reply_task))
                 (EmailsArray (selected Samples.page0))
                 (Some "professional"))
          = Ok200 {| tasks := returned;
                     generated := List.length returned;
                     from_emails := List.length (selected Samples.page0) |}
       /\ [ {| t_props := [("title", "Reply to client")]; t_id := (7, 0);
               t_createdAt := 7; t_aiGenerated := true |} ]
          = page_tasks Samples.page0 ++ added
       /\ List.length added = List.length returned
       /\ forall i task,
            nth_error returned i = Some task ->
            exists t,
              nth_error added i = Some t
              /\ t_id t = (7, i)
              /\ t_createdAt t = 7
              /\ t_aiGenerated t = true
              /\ (forall k,
                    prop k (t_props t)
                    = if String.eqb k "id" || String.eqb k "createdAt"
                         || String.eqb k "aiGenerated"
                      then None
                      else match task with
                           | Some o => prop k o
                           | None => None
                           end)
              /\ emailId t
                 = match task with
                   | Some o => prop "emailId" o
                   | None => None
                   end.
Proof.
  destruct (tasks_are_helper_output JsonHelper.parseAIResponse
              (Samples.backend_with (Some Samples.reply_task))) as [R G].
  split.
  - exact (R [Samples.e1] None
             {| tasks := [Some [("title", "Reply to client")]];
                generated := 1; from_emails := 1 |}
             [ProbeCall; ChatCall (TasksPrompt (emailContent [Samples.e1]))]
             eq_refl).
  - exact (G 7 "professional" Samples.page0
             {| emails := [Samples.e1]; selectedEmails := [];
                page_tasks :=
                  [ {| t_props := [("title", "Reply to client")];
                       t_id := (7, 0); t_createdAt := 7;
                       t_aiGenerated := true |} ] |}
             [ProbeCall; ChatCall (TasksPrompt (emailContent [Samples.e1]))]
             eq_refl).
Defined.

(** A generated task reaches the page without any emailId, though its
    batch holds the email e1. *)
Lemma task_without_source_email :
  generateTasksFromEmails JsonHelper.parseAIResponse
    (Samples.backend_with (Some Samples.reply_task)) 7 "professional"
    Samples.page0
  = ({| emails := [Samples.e1]; selectedEmails := [];
        page_tasks :=
          [ {| t_props := [("title", "Reply to client")]; t_id := (7, 0);
               t_createdAt := 7; t_aiGenerated := true |} ] |},
     None,
     [ProbeCall; ChatCall (TasksPrompt (emailContent [Samples.e1]))])
  /\ emailId {| t_props := [("title", "Reply to client")]; t_id := (7, 0);
                t_createdAt := 7; t_aiGenerated := true |} = None
  /\ forall email,
       In email (emails Samples.page0) ->
       emailId {| t_props := [("title", "Reply to client")]; t_id := (7, 0);
                  t_createdAt := 7; t_aiGenerated := true |}
       <> Some (id email).
Proof. repeat split; try reflexivity. intros email _. discriminate. Qed.



End TasksFacts.

(** ** Tone *)
Module ToneFacts.
Import Js Model Draft KeywordFacts.

Lemma append_assoc (a b c : string) :
  ((a ++ b) ++ c = a ++ b ++ c)%string.
Proof. induction a as [|x a IH]; simpl; [reflexivity | now rewrite IH]. Qed.

Lemma prefix_here (k b : string) : String.prefix k (k ++ b) = true.
Proof.
  induction k as [|c k IH]; simpl; [destruct b; reflexivity|].
  destruct (Ascii.ascii_dec c c); [assumption | congruence].
Qed.

Lemma includes_here (k b : string) : includes (k ++ b) k = true.
Proof.
  destruct k as [|c k]; [destruct b; reflexivity|].
  change (includes (String c (k ++ b)) (String c k) = true).
  cbn [includes]. apply orb_true_iff. left.
  exact (prefix_here (String c k) b).
Qed.

Lemma includes_here2 (k e rest : string) :
  includes (k ++ e ++ rest) (k ++ e) = true.
Proof. rewrite <- append_assoc. apply includes_here. Qed.

Lemma includes_here3 (k e c rest : string) :
  includes (k ++ e ++ c ++ rest) (k ++ e ++ c) = true.
Proof. rewrite <- !append_assoc. apply includes_here. Qed.

Section Route.
Variable toLowerCase : string -> string.
Variable parse : string -> Outcome (list Element).

(** C7, as the code has it.  The draft prompt substitutes "professional"
    only for an absent or empty tone and otherwise carries the tone it was
    given, whatever it is; the tone never makes the draft route fail; the
    task route does not use the tone. *)
Theorem tone_is_used_as_given (b : Backend) (email : Email)
    (tone instructions other : option string) (emails : EmailsField) :
  (tone = None \/ tone = Some EmptyString ->
   effective_tone tone = "professional")
  /\ (forall t, truthy t = true -> tone = Some t -> effective_tone tone = t)
  /\ includes (prompt email tone instructions)
       ("TONE REQUIREMENT: " ++ effective_tone tone) = true
  /\ includes (prompt email tone instructions)
       ("2. Matches the specified tone (" ++ effective_tone tone ++ ")")
     = true
  /\ (list_ok b = true ->
      chat b 0 (DraftPrompt (prompt email tone instructions)) <> ChatThrows ->
      exists text,
        fst (POST b (Some email) tone instructions) = Ok200 text)
  /\ Tasks.POST parse b emails tone = Tasks.POST parse b emails other.
Proof.
  split; [|split; [|split; [|split; [|split]]]].
  - intros [->| ->]; reflexivity.
  - intros t T ->. unfold effective_tone, or_else. now rewrite T.
  - unfold prompt.
    repeat first [ apply includes_here2 | apply includes_app_r ].
  - unfold prompt.
    repeat first [ apply includes_here3 | apply includes_app_r ].
  - intros OK CH. unfold POST. rewrite OK. simpl negb. cbv iota.
    destruct (chat b 0 _) as [|content]; [congruence|].
    eexists. reflexivity.
  - reflexivity.
Qed.

End Route.

Lemma tone_is_used_as_given_witness :
  effective_tone None = "professional"
  /\ effective_tone (Some "casual") = "casual"
  /\ exists text,
       fst (POST (Samples.backend_with (Some "Dear customer"))
                 (Some Samples.e1) (Some "casual") None)
       = Ok200 text.
Proof.
  destruct (tone_is_used_as_given JsonHelper.parseAIResponse
              (Samples.backend_with (Some "Dear customer")) Samples.e1
              None None None EmailsFalsy) as (A & _).
  destruct (tone_is_used_as_given JsonHelper.parseAIResponse
              (Samples.backend_with (Some "Dear customer")) Samples.e1
              (Some "casual") None None EmailsFalsy)
    as (_ & B & _ & _ & C & _).
  split; [apply A; left; reflexivity|].
  split; [apply (B "casual"); reflexivity|].
  apply C; [reflexivity | discriminate].
Defined.

(** A tone outside the recognised set reaches the prompt as it is. *)
Lemma unrecognized_tone_is_kept :
  recognized "sarcastic" = false
  /\ effective_tone (Some "sarcastic") = "sarcastic"
  /\ effective_tone (Some "sarcastic") <> "professional"
  /\ includes (prompt Samples.e1 (Some "sarcastic") None)
       "TONE REQUIREMENT: sarcastic" = true
  /\ includes (prompt Samples.e1 (Some "sarcastic") None)
       "TONE REQUIREMENT: professional" = false.
Proof. repeat split; try reflexivity. discriminate. Qed.

End ToneFacts.

(** ** Further instances *)
Module Instances.
Import Js Model.

(** When the helper throws, the task route answers with status 500 and the
    categorise route with the default records. *)
Lemma helper_throw_handling (toLowerCase : string -> string)
    (parse : string -> Outcome (list Element))
    (batch : list Email) (collected : list CategorizedEmail)
    (responseText message : string) :
  truthy responseText = true ->
  parse responseText = Thrown message ->
  Tasks.reconcile parse batch (Some responseText)
    = Failure 500 "Failed to parse AI response into valid tasks"
  /\ Categorize.reconcile toLowerCase parse collected batch (Some responseText)
     = collected ++ map Categorize.default_record batch.
Proof.
  intros T P. unfold Tasks.reconcile, Categorize.reconcile, Categorize.merge.
  rewrite T, P. split; [reflexivity | apply MergeFacts.fallback_push_map].
Qed.

(** Whatever the helper, a task it returns cannot be linked to the batch:
    the same text yields the same task for batches with different ids. *)
Lemma linkage_fails_for_any_helper (parse : string -> Outcome (list Element))
    (text : string) (task : Element) (rest : list Element) :
  truthy text = true ->
  parse text = Returned (task :: rest) ->
  exists batch,
    batch <> []
    /\ fst (Tasks.POST parse (Samples.backend_with (Some text))
              (EmailsArray batch) None)
       = Ok200 {| Tasks.tasks := task :: rest;
                  Tasks.generated := S (List.length rest);
                  Tasks.from_emails := List.length batch |}
    /\ forall now email,
         In email batch ->
         Tasks.emailId (Tasks.new_task now 0 task) <> Some (id email).
Proof.
  intros T P.
  assert (R : forall batch, batch <> [] ->
            fst (Tasks.POST parse (Samples.backend_with (Some text))
                   (EmailsArray batch) None)
            = Ok200 {| Tasks.tasks := task :: rest;
                       Tasks.generated := S (List.length rest);
                       Tasks.from_emails := List.length batch |}).
  { intros [|e l] NE; [congruence|].
    unfold Tasks.POST, Tasks.reconcile. simpl. now rewrite T, P. }
  destruct (option_map (String.eqb "e1")
              (Tasks.emailId (Tasks.new_task 0 0 task))) as [[|]|] eqn:Q.
  - exists [Samples.e2]. split; [discriminate|]. split; [now apply R|].
    intros now email [<-|[]] H.
    change (Tasks.emailId (Tasks.new_task 0 0 task) = Some "e2") in H.
    rewrite H in Q. discriminate.
  - exists [Samples.e1]. split; [discriminate|]. split; [now apply R|].
    intros now email [<-|[]] H.
    change (Tasks.emailId (Tasks.new_task 0 0 task) = Some "e1") in H.
    rewrite H in Q. discriminate.
  - exists [Samples.e1]. split; [discriminate|]. split; [now apply R|].
    intros now email [<-|[]] H.
    change (Tasks.emailId (Tasks.new_task 0 0 task) = Some "e1") in H.
    rewrite H in Q. discriminate.
Qed.


Lemma categorize_batches_in_order_witness :
  (exists records,
     Categorize.POST Samples.ascii_fold JsonHelper.parseAIResponse
       (Samples.backend_with (Some Samples.fenced))
       (EmailsArray (repeat Samples.e1 23))
     = Some (Ok200 records,
             [ProbeCall;
              Categorize.call_of (repeat Samples.e1 10);
              Categorize.call_of (repeat Samples.e1 10);
              Categorize.call_of (repeat Samples.e1 3)]))
  /\ Categorize.POST Samples.ascii_fold JsonHelper.parseAIResponse
       (MoreSamples.backend_failing_from 1 (Some Samples.fenced))
       (EmailsArray (repeat Samples.e1 23))
     = Some (Failure 500 "Failed to categorize emails",
             [ProbeCall;
              Categorize.call_of (repeat Samples.e1 10);
              Categorize.call_of (repeat Samples.e1 10)])
  /\ exists batch,
       nth_error (Categorize.batches 23 0 (repeat Samples.e1 23)) (21 / 10)
       = Some batch
       /\ nth_error batch (21 mod 10) = Some Samples.e1.
Proof.
  destruct (CategorizeFacts.categorize_batches_in_order
              Samples.ascii_fold JsonHelper.parseAIResponse
              (Samples.backend_with (Some Samples.fenced))
              (repeat Samples.e1 23)) as (_ & _ & G & _ & _ & _ & A & _).
  destruct (CategorizeFacts.categorize_batches_in_order
              Samples.ascii_fold JsonHelper.parseAIResponse
              (MoreSamples.backend_failing_from 1 (Some Samples.fenced))
              (repeat Samples.e1 23)) as (_ & _ & _ & _ & _ & _ & _ & T).
  split; [|split].
  - apply A; [reflexivity|]. intros k batch N. discriminate.
  - apply (T eq_refl 1 (repeat Samples.e1 10) eq_refl eq_refl).
    intros j earlier J N.
    destruct j as [|j]; [discriminate | lia].
  - apply (G 21 Samples.e1 eq_refl).
Defined.

(** Twenty-three emails go to the model as batches of ten, ten and three. *)
Example batches_of_23 :
  map (@List.length Email)
      (Categorize.batches 23 0 (repeat Samples.e1 23)) = [10; 10; 3].
Proof. reflexivity. Qed.

End Instances.

(** ** The to-do page *)
Module TodoPageFacts.
Import Js Model Tasks TodoPage Shape.

Lemma subseq_filter {A : Type} (f : A -> bool) (l : list A) :
  subseq (filter f l) l.
Proof.
  induction l as [|x l IH]; simpl; [constructor|].
  destruct (f x); constructor; assumption.
Qed.

Lemma includes_id (emailId : string) (prev : list string) :
  existsb (fun id => String.eqb id emailId) prev = true <-> In emailId prev.
Proof.
  rewrite existsb_exists. split.
  - intros (x & I & E). apply String.eqb_eq in E. now subst.
  - intros I. exists emailId. split; [assumption | apply String.eqb_refl].
Qed.

Lemma filter_absent (emailId : string) (prev : list string) :
  ~ In emailId prev ->
  filter (fun id => negb (String.eqb id emailId)) prev = prev.
Proof.
  induction prev as [|x prev IH]; intros N; [reflexivity|]. simpl.
  destruct (String.eqb_spec x emailId) as [->|D].
  - exfalso. apply N. now left.
  - simpl. rewrite IH; [reflexivity|]. intros I. apply N. now right.
Qed.

(** Clicking an email flips its membership in the selection and leaves
    every other id as it was; a selection without repetition stays so; and
    selecting an unselected email and clicking it again restores the
    selection. *)
Theorem toggle_selection_flips (emailId other : string)
    (prev : list string) :
  (In emailId (toggleEmailSelection emailId prev) <-> ~ In emailId prev)
  /\ (other <> emailId ->
      (In other (toggleEmailSelection emailId prev) <-> In other prev))
  /\ (NoDup prev -> NoDup (toggleEmailSelection emailId prev))
  /\ (~ In emailId prev ->
      toggleEmailSelection emailId (toggleEmailSelection emailId prev) = prev).
Proof.
  unfold toggleEmailSelection.
  destruct (existsb _ prev) eqn:E.
  - assert (I : In emailId prev) by (now apply includes_id).
    split; [|split; [|split]].
    + split.
      * intros H. apply filter_In in H. destruct H as [_ H].
        now rewrite String.eqb_refl in H.
      * intros N. contradiction.
    + intros D. split.
      * intros H. now apply filter_In in H.
      * intros H. apply filter_In. split; [assumption|].
        destruct (String.eqb_spec other emailId);
          [contradiction | reflexivity].
    + intros ND. now apply NoDup_filter.
    + intros N. contradiction.
  - assert (N : ~ In emailId prev).
    { intros I. apply includes_id in I. congruence. }
    split; [|split; [|split]].
    + split; [intros _; exact N|].
      intros _. apply in_or_app. right. now left.
    + intros D. split.
      * intros H. apply in_app_or in H. destruct H as [H1|[H2|[]]];
          [assumption | congruence].
      * intros H. apply in_or_app. now left.
    + intros ND. apply NoDup_app.
      * assumption.
      * repeat constructor. intros [].
      * intros x I [<-|[]]. contradiction.
    + intros _.
      assert (E2 : existsb (fun id => String.eqb id emailId)
                     (prev ++ [emailId]) = true).
      { apply includes_id, in_or_app. right. now left. }
      rewrite E2, filter_app, (filter_absent emailId prev N). simpl.
      rewrite String.eqb_refl. simpl. apply app_nil_r.
Qed.

Lemma toggle_selection_flips_witness :
  toggleEmailSelection "e1" (toggleEmailSelection "e1" ["e2"]) = ["e2"]
  /\ NoDup (toggleEmailSelection "e1" ["e2"]).
Proof.
  destruct (toggle_selection_flips "e1" "e2" ["e2"]) as (_ & _ & ND & R).
  split.
  - apply R. intros [H|[]]. discriminate.
  - apply ND. repeat constructor. intros [].
Defined.

Lemma prop_set_same (k v : string) (o : Obj) :
  prop k (JsonHelper.set_prop k v o) = Some v.
Proof.
  induction o as [|[k' v'] o IH]; simpl.
  - now rewrite String.eqb_refl.
  - destruct (String.eqb k k') eqn:E; simpl.
    + now rewrite String.eqb_refl.
    + now rewrite E.
Qed.

Lemma prop_set_other (k k' v : string) (o : Obj) :
  k' <> k -> prop k' (JsonHelper.set_prop k v o) = prop k' o.
Proof.
  intros D. induction o as [|[k0 v0] o IH]; simpl.
  - destruct (String.eqb_spec k' k); [contradiction | reflexivity].
  - destruct (String.eqb_spec k k0) as [->|D0]; simpl.
    + destruct (String.eqb_spec k' k0); [contradiction | reflexivity].
    + now rewrite IH.
Qed.

Lemma id_eqb_eq (a b : nat * nat) : id_eqb a b = true <-> a = b.
Proof.
  destruct a as [a1 a2], b as [b1 b2]. unfold id_eqb. simpl.
  rewrite andb_true_iff, !Nat.eqb_eq. split.
  - intros [-> ->]. reflexivity.
  - intros H. inversion H. auto.
Qed.

Lemma with_status_fields (s : string) (task : TodoTask) :
  status (with_status s task) = Some s
  /\ type_of (with_status s task) = type_of task
  /\ priority (with_status s task) = priority task
  /\ emailId (with_status s task) = emailId task.
Proof.
  unfold status, type_of, priority, emailId, with_status. simpl t_props.
  rewrite prop_set_same. rewrite !prop_set_other by discriminate. auto.
Qed.

(** Toggling a task keeps the list's length and order, leaves tasks with
    another id untouched, and changes only the status of a task with that
    id: to pending if it was completed, to completed otherwise (also when
    the task had no status or was in progress). *)
Theorem toggle_status_effect (taskId : nat * nat) (prev : list TodoTask) :
  List.length (toggleTaskStatus taskId prev) = List.length prev
  /\ map t_id (toggleTaskStatus taskId prev) = map t_id prev
  /\ forall i task,
       nth_error prev i = Some task ->
       exists task',
         nth_error (toggleTaskStatus taskId prev) i = Some task'
         /\ (t_id task <> taskId -> task' = task)
         /\ (t_id task = taskId ->
             status task'
               = Some (if is_literal (status task) "completed"
                       then "pending" else "completed")
             /\ type_of task' = type_of task
             /\ priority task' = priority task
             /\ emailId task' = emailId task).
Proof.
  unfold toggleTaskStatus. split; [apply length_map|]. split.
  - rewrite map_map. apply map_ext. intros task.
    destruct (id_eqb (t_id task) taskId); reflexivity.
  - intros i task N. rewrite nth_error_map, N. simpl.
    eexists. split; [reflexivity|]. split.
    + intros D. destruct (id_eqb (t_id task) taskId) eqn:E; [|reflexivity].
      apply id_eqb_eq in E. contradiction.
    + intros E. apply id_eqb_eq in E. rewrite E. apply with_status_fields.
Qed.

Lemma toggle_status_effect_witness :
  exists task',
    nth_error
      (toggleTaskStatus (7, 0)
         [new_task 7 0 (Some [("title", "Reply to client")])]) 0
    = Some task'
    /\ status task' = Some "completed".
Proof.
  destruct (toggle_status_effect (7, 0)
              [new_task 7 0 (Some [("title", "Reply to client")])])
    as (_ & _ & H).
  destruct (H 0 _ eq_refl) as (task' & N & _ & S).
  exists task'. split; [exact N|]. exact (proj1 (S eq_refl)).
Defined.

(** Toggling the same task twice restores its status only if it was
    completed or pending: any other task ends up pending. *)
Theorem toggle_twice_status (taskId : nat * nat) (prev : list TodoTask)
    (i : nat) (task : TodoTask) :
  nth_error prev i = Some task ->
  t_id task = taskId ->
  exists task'',
    nth_error (toggleTaskStatus taskId (toggleTaskStatus taskId prev)) i
    = Some task''
    /\ status task''
       = Some (if is_literal (status task) "completed"
               then "completed" else "pending").
Proof.
  intros N E. apply id_eqb_eq in E. unfold toggleTaskStatus.
  rewrite !nth_error_map, N. cbn [option_map]. rewrite E.
  cbn [with_status t_id]. rewrite E.
  eexists. split; [reflexivity|].
  rewrite (proj1 (with_status_fields _ _)).
  rewrite (proj1 (with_status_fields _ task)).
  destruct (is_literal (status task) "completed"); reflexivity.
Qed.

Lemma toggle_twice_status_witness :
  exists task'',
    nth_error
      (toggleTaskStatus (7, 0)
         (toggleTaskStatus (7, 0)
            [new_task 7 0 (Some [("status", "in-progress")])])) 0
    = Some task''
    /\ status task'' = Some "pending".
Proof.
  exact (toggle_twice_status (7, 0)
           [new_task 7 0 (Some [("status", "in-progress")])] 0
           (new_task 7 0 (Some [("status", "in-progress")]))
           eq_refl eq_refl).
Defined.

Lemma map_index_ids (now : nat) (ts : list Element) :
  forall k,
    map t_id (map_index now k ts)
    = map (fun i => (now, i)) (seq k (List.length ts)).
Proof.
  induction ts as [|t ts IH]; intros k; simpl; [reflexivity|].
  now rewrite IH.
Qed.

Lemma map_index_NoDup (now : nat) (ts : list Element) (k : nat) :
  NoDup (map t_id (map_index now k ts)).
Proof.
  rewrite map_index_ids. generalize (List.length ts) as n. intros n.
  revert k. induction n as [|n IH]; intros k; simpl; constructor.
  - intros I. apply in_map_iff in I. destruct I as (i & E & I).
    inversion E; subst. apply in_seq in I. lia.
  - apply IH.
Qed.

(** Generating tasks keeps the tasks already on the page, in front; and if
    no task on the page was created at the current clock value, task ids
    stay pairwise distinct. *)
Theorem generation_keeps_ids_distinct
    (parse : string -> Outcome (list Element)) (b : Backend) (now : nat)
    (tone : string) (st st' : Page) (alert : option string)
    (log : list Call) :
  generateTasksFromEmails parse b now tone st = (st', alert, log) ->
  (exists appended, page_tasks st' = page_tasks st ++ appended)
  /\ (NoDup (map t_id (page_tasks st)) ->
      (forall t, In t (page_tasks st) -> fst (t_id t) <> now) ->
      NoDup (map t_id (page_tasks st'))).
Proof.
  unfold generateTasksFromEmails. intros G.
  assert (K : st' = st
              \/ exists ts, page_tasks st'
                            = page_tasks st ++ map_index now 0 ts).
  { destruct (selectedEmails st); [inversion G; now left|].
    destruct (POST parse b _ (Some tone)) as [[data|status error] l'];
      inversion G; subst; [right; now eexists | now left]. }
  destruct K as [->|(ts & E)].
  - split; [exists []; now rewrite app_nil_r | auto].
  - split; [eexists; exact E|]. intros ND F. rewrite E, map_app.
    apply NoDup_app; [assumption | apply map_index_NoDup |].
    intros x I1 I2. apply in_map_iff in I1. destruct I1 as (t & <- & I1).
    rewrite map_index_ids in I2. apply in_map_iff in I2.
    destruct I2 as (i & E2 & _). apply (F t I1). now rewrite <- E2.
Qed.

Lemma generation_keeps_ids_distinct_witness :
  NoDup (map t_id
           (page_tasks
              (fst (fst (generateTasksFromEmails JsonHelper.parseAIResponse
                           (Samples.backend_with (Some Samples.reply_task))
                           7 "professional" Samples.page0))))).
Proof.
  apply (proj2 (generation_keeps_ids_distinct JsonHelper.parseAIResponse
                  (Samples.backend_with (Some Samples.reply_task)) 7
                  "professional" Samples.page0 _ _ _ eq_refl)).
  - constructor.
  - intros t [].
Defined.

Lemma delete_absent (taskId : nat * nat) (prev : list TodoTask) :
  ~ In taskId (map t_id prev) ->
  filter (fun task => negb (id_eqb (t_id task) taskId)) prev = prev.
Proof.
  induction prev as [|t prev IH]; intros N; [reflexivity|]. simpl.
  destruct (id_eqb (t_id t) taskId) eqn:E.
  - apply id_eqb_eq in E. exfalso. apply N. now left.
  - simpl. rewrite IH; [reflexivity|]. intros I. apply N. now right.
Qed.

(** Deleting removes every task with the given id and nothing else, keeps
    the order, and is idempotent; when ids are pairwise distinct and the
    id is on the page, exactly one task goes. *)
Theorem delete_removes_exactly (taskId : nat * nat) (prev : list TodoTask) :
  (forall task,
     In task (deleteTask taskId prev)
     <-> In task prev /\ t_id task <> taskId)
  /\ subseq (deleteTask taskId prev) prev
  /\ deleteTask taskId (deleteTask taskId prev) = deleteTask taskId prev
  /\ (NoDup (map t_id prev) ->
      In taskId (map t_id prev) ->
      S (List.length (deleteTask taskId prev)) = List.length prev).
Proof.
  unfold deleteTask. split; [|split; [|split]].
  - intros task. rewrite filter_In. split; intros [I H]; split; auto.
    + intros E. apply id_eqb_eq in E. now rewrite E in H.
    + destruct (id_eqb (t_id task) taskId) eqn:E; [|reflexivity].
      apply id_eqb_eq in E. contradiction.
  - apply subseq_filter.
  - induction prev as [|t prev IH]; simpl; [reflexivity|].
    destruct (id_eqb (t_id t) taskId) eqn:E; simpl; [assumption|].
    now rewrite E, IH.
  - induction prev as [|t prev IH]; simpl; intros ND I; [contradiction|].
    inversion ND as [|x l NI ND']; subst.
    destruct (id_eqb (t_id t) taskId) eqn:E; simpl.
    + apply id_eqb_eq in E. rewrite E in NI.
      now rewrite (delete_absent taskId prev NI).
    + f_equal. apply IH; [assumption|].
      destruct I as [I|I]; [|assumption].
      apply id_eqb_eq in I. congruence.
Qed.

Lemma delete_removes_exactly_witness :
  S (List.length
       (deleteTask (7, 1)
          (map_index 7 0 [None; Some [("title", "Reply to client")]])))
  = 2.
Proof.
  apply (proj2 (proj2 (proj2 (delete_removes_exactly (7, 1)
           (map_index 7 0 [None; Some [("title", "Reply to client")]]))))).
  - apply map_index_NoDup.
  - right. now left.
Defined.

(** The statistics count every task once: as completed, pending, in
    progress, or as having none of these statuses (a generated task has a
    status only if the model wrote one). *)
Theorem stats_partition (tasks : list TodoTask) :
  total (getTaskStats tasks)
  = completed (getTaskStats tasks) + pending (getTaskStats tasks)
    + inProgress (getTaskStats tasks)
    + List.length
        (filter (fun t => negb (is_literal (status t) "completed")
                          && negb (is_literal (status t) "pending")
                          && negb (is_literal (status t) "in-progress"))
                tasks)
  /\ urgent (getTaskStats tasks) <= total (getTaskStats tasks)
  /\ forall taskId,
       total (getTaskStats (toggleTaskStatus taskId tasks))
         = total (getTaskStats tasks)
       /\ urgent (getTaskStats (toggleTaskStatus taskId tasks))
          = urgent (getTaskStats tasks).
Proof.
  unfold getTaskStats. cbn [total completed pending inProgress urgent].
  split; [|split].
  - induction tasks as [|t tasks IH]; [reflexivity|]. cbn [filter].
    destruct (is_literal (status t) "completed") eqn:A,
             (is_literal (status t) "pending") eqn:B,
             (is_literal (status t) "in-progress") eqn:C;
      cbn [negb andb List.length]; try lia;
      exfalso; unfold is_literal in *; destruct (status t) as [s|];
      try discriminate;
      repeat match goal with
             | H : String.eqb _ _ = true |- _ => apply String.eqb_eq in H
             end; congruence.
  - apply filter_length_le.
  - intros taskId. split; [unfold toggleTaskStatus; apply length_map|].
    unfold toggleTaskStatus.
    induction tasks as [|t tasks IH]; [reflexivity|].
    assert (P : priority
                  (if id_eqb (t_id t) taskId
                   then with_status
                          (if is_literal (status t) "completed"
                           then "pending" else "completed") t
                   else t) = priority t).
    { destruct (id_eqb (t_id t) taskId); [|reflexivity].
      apply with_status_fields. }
    cbn [map filter]. rewrite P.
    destruct (is_literal (priority t) "urgent"); cbn [List.length];
      now rewrite IH.
Qed.

Lemma filter_all {A : Type} (f : A -> bool) (l : list A) :
  (forall x, f x = true) -> filter f l = l.
Proof.
  intros H. induction l as [|x l IH]; simpl; [reflexivity|].
  now rewrite H, IH.
Qed.

(** With every filter on "all" the whole list is shown; a filtered list is
    a selection of the tasks in order, and each shown task matches every
    filter that is not "all"; so a task without a status is hidden by any
    status filter. *)
Theorem filtered_tasks_match (filterType filterPriority filterStatus : string)
    (tasks : list TodoTask) :
  filteredTasks "all" "all" "all" tasks = tasks
  /\ subseq (filteredTasks filterType filterPriority filterStatus tasks)
            tasks
  /\ (forall task,
       In task (filteredTasks filterType filterPriority filterStatus tasks) ->
       (filterType <> "all" -> type_of task = Some filterType)
       /\ (filterPriority <> "all" -> priority task = Some filterPriority)
       /\ (filterStatus <> "all" -> status task = Some filterStatus))
  /\ (filterStatus <> "all" ->
      forall task,
        status task = None ->
        ~ In task (filteredTasks filterType filterPriority filterStatus
                     tasks)).
Proof.
  assert (L : forall v f, f <> "all" ->
              String.eqb f "all" || is_literal v f = true -> v = Some f).
  { intros v f D H. destruct (String.eqb_spec f "all"); [contradiction|].
    simpl in H. destruct v as [s|]; [|discriminate]. simpl in H.
    apply String.eqb_eq in H. now subst. }
  unfold filteredTasks. split; [|split; [|split]].
  - apply filter_all. intros task. reflexivity.
  - apply subseq_filter.
  - intros task I. apply filter_In in I. destruct I as [_ I]. cbv zeta in I.
    apply andb_true_iff in I. destruct I as [I S].
    apply andb_true_iff in I. destruct I as [T P].
    repeat split; intros D; now apply L.
  - intros D task N I. apply filter_In in I. destruct I as [_ I].
    cbv zeta in I. apply andb_true_iff in I. destruct I as [_ S].
    apply (L _ _ D) in S. congruence.
Qed.

Lemma filtered_tasks_match_witness :
  ~ In (new_task 7 0 (Some [("title", "Reply to client")]))
       (filteredTasks "all" "all" "pending"
          [new_task 7 0 (Some [("title", "Reply to client")])]).
Proof.
  apply (proj2 (proj2 (proj2 (filtered_tasks_match "all" "all" "pending"
           [new_task 7 0 (Some [("title", "Reply to client")])]))));
    [discriminate | reflexivity].
Defined.

End TodoPageFacts.

(** ** The organise page *)
Module OrganizePageFacts.
Import Js Model OrganizePage Shape.

(** The filter shows a selection of the emails in their order: exactly
    those whose lower-cased subject, sender or snippet includes the
    lower-cased search term (if one is typed) and whose theme is the
    selected one (unless it is "all").  Without a term and with theme "all"
    it shows all of them.  The term is used through its lower-case form
    only: two typed terms with the same lower-case form select the same
    emails, whatever the platform's lowering is.  The page number goes
    back to 1. *)
Theorem filter_emails_shape (toLowerCase : string -> string)
    (emails : list CategorizedEmail) (searchTerm selectedTheme : string) :
  filterEmails toLowerCase emails EmptyString "all" = (emails, 1)
  /\ snd (filterEmails toLowerCase emails searchTerm selectedTheme) = 1
  /\ subseq (fst (filterEmails toLowerCase emails searchTerm selectedTheme))
            emails
  /\ (forall email,
        In email (fst (filterEmails toLowerCase emails searchTerm
                         selectedTheme))
        <-> In email emails
            /\ (searchTerm = EmptyString
                \/ includes (toLowerCase (c_subject email))
                            (toLowerCase searchTerm) = true
                \/ includes (toLowerCase (c_sender email))
                            (toLowerCase searchTerm) = true
                \/ includes (toLowerCase (c_snippet email))
                            (toLowerCase searchTerm) = true)
            /\ (selectedTheme = "all" \/ c_theme email = selectedTheme))
  /\ (forall other,
        (other = EmptyString <-> searchTerm = EmptyString) ->
        toLowerCase other = toLowerCase searchTerm ->
        filterEmails toLowerCase emails other selectedTheme
        = filterEmails toLowerCase emails searchTerm selectedTheme).
Proof.
  split; [reflexivity|]. split; [reflexivity|].
  unfold filterEmails. cbn [fst snd].
  assert (ST : truthy searchTerm = false -> searchTerm = EmptyString)
    by (destruct searchTerm; [reflexivity | discriminate]).
  assert (MS : forall email,
            matches_search toLowerCase searchTerm email = true
            <-> (includes (toLowerCase (c_subject email))
                          (toLowerCase searchTerm) = true
                 \/ includes (toLowerCase (c_sender email))
                             (toLowerCase searchTerm) = true
                 \/ includes (toLowerCase (c_snippet email))
                             (toLowerCase searchTerm) = true)).
  { intros email. unfold matches_search.
    rewrite !orb_true_iff. tauto. }
  split; [|split].
  - destruct (truthy searchTerm), (String.eqb selectedTheme "all");
      cbn [negb].
    + apply TodoPageFacts.subseq_filter.
    + induction emails as [|e l IH]; cbn [filter]; [constructor|].
      destruct (matches_search toLowerCase searchTerm e); cbn [filter].
      * destruct (String.eqb (c_theme e) selectedTheme);
          now constructor.
      * now constructor.
    + apply MergeFacts.subseq_refl.
    + apply TodoPageFacts.subseq_filter.
  - intros email. rewrite <- MS.
    destruct (truthy searchTerm) eqn:T;
      destruct (String.eqb_spec selectedTheme "all") as [A|A]; cbn [negb];
      rewrite ?filter_In.
    + split; [intros [I M]; auto | intros (I & [E|M] & _); [|auto]].
      subst. discriminate.
    + split.
      * intros [[I M] E]. apply String.eqb_eq in E. auto.
      * intros (I & [E|M] & [E2|E2]); try contradiction;
          [subst; discriminate|].
        split; [auto | now apply String.eqb_eq].
    + split; [intros I; auto | now intros (I & _)].
    + split.
      * intros [I E]. apply String.eqb_eq in E. auto.
      * intros (I & _ & [E2|E2]); [contradiction|].
        split; [auto | now apply String.eqb_eq].
  - intros other EE L.
    assert (TT : truthy other = truthy searchTerm).
    { destruct other, searchTerm; try reflexivity.
      - destruct (proj1 EE eq_refl). reflexivity.
      - destruct (proj2 EE eq_refl). reflexivity. }
    rewrite TT.
    assert (M : forall e, matches_search toLowerCase other e
                          = matches_search toLowerCase searchTerm e)
      by (intros e; unfold matches_search; now rewrite L).
    now rewrite (filter_ext _ _ M).
Qed.

Lemma filter_emails_shape_witness :
  In (spread_with Samples.e1 "finance" "payment")
     (fst (filterEmails Samples.ascii_fold
             [spread_with Samples.e1 "finance" "payment";
              spread_with Samples.e2 "work" "meeting"] "INVOICE" "all"))
  /\ filterEmails Samples.ascii_fold
       [spread_with Samples.e1 "finance" "payment";
        spread_with Samples.e2 "work" "meeting"] "Invoice" "all"
     = filterEmails Samples.ascii_fold
         [spread_with Samples.e1 "finance" "payment";
          spread_with Samples.e2 "work" "meeting"] "INVOICE" "all".
Proof.
  destruct (filter_emails_shape Samples.ascii_fold
              [spread_with Samples.e1 "finance" "payment";
               spread_with Samples.e2 "work" "meeting"] "INVOICE" "all")
    as (_ & _ & _ & A & B).
  split.
  - apply A. split; [now left|]. split; [|left; reflexivity].
    right.
    first [ left; reflexivity | right; left; reflexivity
          | right; right; reflexivity ].
  - apply (B "Invoice"); [split; discriminate | reflexivity].
Defined.

Lemma firstn_plus {A : Type} (a b : nat) (l : list A) :
  firstn (a + b) l = firstn a l ++ firstn b (skipn a l).
Proof.
  revert l. induction a as [|a IH]; intros l; [reflexivity|].
  destruct l as [|x l]; simpl.
  - now rewrite firstn_nil.
  - now rewrite IH.
Qed.

Lemma pages_prefix (l : list CategorizedEmail) (n : nat) :
  concat (map (fun p => paginatedEmails p l) (seq 1 n))
  = firstn (n * itemsPerPage) l.
Proof.
  induction n as [|n IH]; [reflexivity|].
  rewrite seq_S, map_app, concat_app, IH. cbn [map concat].
  rewrite app_nil_r. unfold paginatedEmails, slice_list.
  replace (1 + n - 1) with n by lia.
  replace ((1 + n) * itemsPerPage - n * itemsPerPage) with itemsPerPage
    by (unfold itemsPerPage; lia).
  replace (S n * itemsPerPage) with (n * itemsPerPage + itemsPerPage)
    by (unfold itemsPerPage; lia).
  symmetry. apply firstn_plus.
Qed.

Lemma totalPages_bounds (l : list CategorizedEmail) :
  List.length l <= totalPages l * itemsPerPage
  /\ (0 < List.length l -> (totalPages l - 1) * itemsPerPage < List.length l).
Proof.
  unfold totalPages, itemsPerPage.
  assert (E := Nat.div_mod_eq (List.length l + (10 - 1)) 10).
  assert (R := Nat.mod_upper_bound (List.length l + (10 - 1)) 10).
  lia.
Qed.

(** The pages 1 to [totalPages] are consecutive windows of at most ten
    emails that together are the filtered list; each of them is non-empty
    and holds exactly the emails the "Showing .. to .." line announces;
    any later page is empty. *)
Theorem pages_partition (filteredEmails : list CategorizedEmail) :
  concat (map (fun p => paginatedEmails p filteredEmails)
              (seq 1 (totalPages filteredEmails)))
  = filteredEmails
  /\ (forall currentPage,
       1 <= currentPage <= totalPages filteredEmails ->
       0 < List.length (paginatedEmails currentPage filteredEmails)
         <= itemsPerPage
       /\ showing_from currentPage
            + List.length (paginatedEmails currentPage filteredEmails)
          = showing_to currentPage filteredEmails + 1)
  /\ (forall currentPage,
       totalPages filteredEmails < currentPage ->
       paginatedEmails currentPage filteredEmails = []).
Proof.
  destruct (totalPages_bounds filteredEmails) as [U L].
  split; [|split].
  - rewrite pages_prefix. now apply firstn_all2.
  - intros p [P1 P2].
    unfold paginatedEmails, slice_list, showing_from, showing_to.
    rewrite length_firstn, length_skipn.
    assert (0 < List.length filteredEmails).
    { destruct filteredEmails; [|simpl; lia].
      unfold totalPages, itemsPerPage in P2. simpl in P2. lia. }
    assert ((p - 1) * itemsPerPage < List.length filteredEmails).
    { apply Nat.le_lt_trans with ((totalPages filteredEmails - 1) * itemsPerPage);
        [apply Nat.mul_le_mono_r; lia | auto]. }
    unfold itemsPerPage in *. lia.
  - intros p P. unfold paginatedEmails, slice_list.
    rewrite skipn_all2; [now rewrite firstn_nil|].
    apply Nat.le_trans with (totalPages filteredEmails * itemsPerPage);
      [assumption | apply Nat.mul_le_mono_r; lia].
Qed.

Lemma pages_partition_witness :
  0 < List.length
        (paginatedEmails 3 (repeat (Categorize.default_record Samples.e1) 23))
    <= itemsPerPage
  /\ showing_from 3
       + List.length
           (paginatedEmails 3
              (repeat (Categorize.default_record Samples.e1) 23))
     = showing_to 3 (repeat (Categorize.default_record Samples.e1) 23) + 1.
Proof.
  apply (proj1 (proj2 (pages_partition
           (repeat (Categorize.default_record Samples.e1) 23)))).
  split; [lia|]. vm_compute. lia.
Defined.

(** The Previous and Next buttons never leave the range of pages. *)
Theorem page_buttons_stay_in_range (total currentPage : nat) :
  1 <= currentPage <= total ->
  1 <= previous currentPage <= total
  /\ 1 <= next total currentPage <= total
  /\ previous 1 = 1
  /\ next total total = total
  /\ (1 < currentPage -> previous currentPage = currentPage - 1)
  /\ (currentPage < total -> next total currentPage = currentPage + 1).
Proof. unfold previous, next. intros H. repeat split; lia. Qed.

Lemma page_buttons_stay_in_range_witness :
  1 <= previous 2 <= 3 /\ 1 <= next 3 2 <= 3.
Proof.
  destruct (page_buttons_stay_in_range 3 2 ltac:(lia)) as (A & B & _).
  split; assumption.
Defined.




End OrganizePageFacts.

(** ** More on the keyword helpers and the categorise route *)
Module CategorizeMore.
Import Js Keyword Model Categorize LoopFacts MergeFacts Elements.

Ltac split_ifs :=
  repeat match goal with
         | |- context [if ?c then _ else _] => destruct c eqn:?
         end.

(** The helpers only produce labels of their tables: one of the eight
    themes and one of the nine categories.  Every category keyword is also
    a theme keyword: a category other than "general" comes with a theme
    other than "other", and "meeting", "project" and "client" come with
    theme "work". *)
Theorem keyword_labels_consistent (toLowerCase : string -> string)
    (title description : string) :
  In (extractThemeFromTask toLowerCase title description)
     ["work"; "personal"; "finance"; "shopping"; "travel"; "health";
      "education"; "other"]
  /\ In (extractCategoryFromTask toLowerCase title description)
        ["meeting"; "project"; "client"; "payment"; "purchase"; "trip";
         "medical"; "course"; "general"]
  /\ (extractCategoryFromTask toLowerCase title description <> "general" ->
      extractThemeFromTask toLowerCase title description <> "other")
  /\ (In (extractCategoryFromTask toLowerCase title description)
         ["meeting"; "project"; "client"] ->
      extractThemeFromTask toLowerCase title description = "work").
Proof.
  unfold extractThemeFromTask, extractCategoryFromTask. cbv zeta.
  generalize (combined toLowerCase title description) as text. intros text.
  split; [|split; [|split]].
  - split_ifs; simpl; tauto.
  - split_ifs; simpl; tauto.
  - destruct (includes text "meeting") eqn:M;
    destruct (includes text "project") eqn:P;
    destruct (includes text "client") eqn:C;
    destruct (includes text "payment") eqn:Y;
    destruct (includes text "purchase") eqn:U;
    destruct (includes text "trip") eqn:T;
    destruct (includes text "medical") eqn:D;
    destruct (includes text "course") eqn:O;
    rewrite ?orb_true_r, ?orb_true_l, ?orb_false_r, ?orb_false_l;
    intros N; try congruence; split_ifs; discriminate.
  - destruct (includes text "meeting") eqn:M;
    destruct (includes text "project") eqn:P;
    destruct (includes text "client") eqn:C;
    rewrite ?orb_true_r, ?orb_true_l, ?orb_false_r, ?orb_false_l;
    try reflexivity.
    intros I. exfalso. revert I. split_ifs; simpl; intros I;
      repeat (destruct I as [I|I]; [discriminate|]); exact I.
Qed.

Lemma keyword_labels_consistent_witness :
  extractThemeFromTask Samples.ascii_fold "Pay the invoice" "payment due"
  <> "other".
Proof.
  apply (proj1 (proj2 (proj2 (keyword_labels_consistent Samples.ascii_fold
                                "Pay the invoice" "payment due")))).
  discriminate.
Defined.

Section Route.
Variable toLowerCase : string -> string.
Variable parse : string -> Outcome (list Element).

Lemma categorize_one_untitled (cat : list Element) (i : nat) (email : Email) :
  Forall untitled cat -> categorize_one toLowerCase cat i email = default_record email.
Proof.
  intros F. unfold categorize_one.
  destruct (nth_error cat i) as [[o|]|] eqn:N; try reflexivity.
  apply nth_error_In in N.
  assert (U := proj1 (Forall_forall untitled cat) F _ N). simpl in U.
  destruct (prop "title" o) as [t|]; [|reflexivity].
  destruct t; [reflexivity | discriminate].
Qed.

Lemma forEach_push_untitled (cat : list Element) (batch : list Email) :
  Forall untitled cat ->
  forall i, forEach_push toLowerCase cat i batch [] = map default_record batch.
Proof.
  intros F. induction batch as [|e rest IH]; intros i; [reflexivity|].
  rewrite forEach_push_cons, IH, categorize_one_untitled by assumption.
  reflexivity.
Qed.

(** The record of an email is computed from the title and description of
    its parsed element alone.  The theme and category the model wrote are
    never read: when no element has a non-empty title, as in a reply that
    follows the format the prompt asks for, every email of the batch gets
    "other" and "general". *)
Theorem categorize_reads_title_only (collected : list CategorizedEmail)
    (batch : list Email) (responseText : string)
    (categorization : list Element) :
  truthy responseText = true ->
  parse responseText = Returned categorization ->
  (Forall untitled categorization ->
   reconcile toLowerCase parse collected batch (Some responseText)
   = collected ++ map default_record batch)
  /\ (forall (i : nat) (email : Email) (o o' : Obj) (others : list Element),
       nth_error categorization i = Some (Some o) ->
       nth_error others i = Some (Some o') ->
       prop "title" o = prop "title" o' ->
       prop "description" o = prop "description" o' ->
       categorize_one toLowerCase categorization i email
       = categorize_one toLowerCase others i email).
Proof.
  intros T P. split.
  - intros F. unfold reconcile, merge. rewrite T, P, forEach_push_app.
    now rewrite forEach_push_untitled.
  - intros i email o o' others N N' ET ED. unfold categorize_one.
    now rewrite N, N', ET, ED.
Qed.

Lemma loop_throw (b : Backend) (emails : list Email) (fuel : nat) :
  forall i n k acc log batch,
    nth_error (batches fuel i emails) k = Some batch ->
    chat b (n + k) (CategorizePrompt (map emailData batch)) = ChatThrows ->
    exists log',
      loop toLowerCase parse b emails fuel i n acc log
      = Some (Failure 500 "Failed to categorize emails", log')
      /\ List.length log' <= List.length log + S k.
Proof.
  induction fuel as [|fuel IH]; intros i n k acc log batch N C;
    rewrite batches_eq in N; rewrite loop_eq;
    destruct (Nat.ltb i (List.length emails));
    try (destruct k; discriminate).
  cbv zeta. destruct k as [|k]; simpl in N.
  - inversion N; subst. rewrite Nat.add_0_r in C. rewrite C.
    eexists. split; [reflexivity|]. rewrite length_app. simpl. lia.
  - destruct (chat b n _) as [|content].
    + eexists. split; [reflexivity|]. rewrite length_app. simpl. lia.
    + replace (n + S k) with (S n + k) in C by lia.
      destruct (IH (i + batchSize) (S n) k
                  (reconcile toLowerCase parse acc (slice i (i + batchSize) emails) content)
                  (log ++ [ChatCall (CategorizePrompt
                     (map emailData (slice i (i + batchSize) emails)))])
                  batch N C) as (log' & E & L).
      exists log'. split; [exact E|]. rewrite length_app in L. simpl in L. lia.
Qed.

(** If the chat call of any batch throws, the whole request answers with
    status 500: the records of the batches before it are not returned, and
    no batch after it is sent. *)
Theorem categorize_chat_failure_is_fatal (b : Backend) (emails : list Email)
    (k : nat) (batch : list Email) :
  list_ok b = true ->
  nth_error (batches (List.length emails) 0 emails) k = Some batch ->
  chat b k (CategorizePrompt (map emailData batch)) = ChatThrows ->
  exists log,
    POST toLowerCase parse b (EmailsArray emails)
    = Some (Failure 500 "Failed to categorize emails", log)
    /\ List.length log <= 2 + k.
Proof.
  intros OK N C. unfold POST, POST_fuel, enough_fuel. rewrite OK.
  simpl negb. cbv iota.
  destruct (loop_throw b emails (List.length emails) 0 0 k [] [ProbeCall]
              batch N C) as (log' & E & L).
  exists log'. split; [exact E | simpl in L; lia].
Qed.

End Route.

Lemma categorize_reads_title_only_witness :
  reconcile Samples.ascii_fold JsonHelper.parseAIResponse [] [Samples.e1]
    (Some MoreSamples.schema_reply)
  = [] ++ map default_record [Samples.e1].
Proof.
  apply (proj1 (categorize_reads_title_only Samples.ascii_fold
                  JsonHelper.parseAIResponse []
                  [Samples.e1] MoreSamples.schema_reply
                  [Some [("id", "e1"); ("theme", "work");
                         ("category", "meeting")]]
                  eq_refl eq_refl)).
  repeat constructor.
Defined.

Lemma categorize_chat_failure_is_fatal_witness :
  exists log,
    POST Samples.ascii_fold JsonHelper.parseAIResponse
      (MoreSamples.backend_failing_from 1 (Some Samples.fenced))
      (EmailsArray (repeat Samples.e1 12))
    = Some (Failure 500 "Failed to categorize emails", log)
    /\ List.length log <= 2 + 1.
Proof.
  apply (categorize_chat_failure_is_fatal Samples.ascii_fold
           JsonHelper.parseAIResponse
           (MoreSamples.backend_failing_from 1 (Some Samples.fenced))
           (repeat Samples.e1 12) 1 (repeat Samples.e1 2));
    reflexivity.
Defined.

End CategorizeMore.

(** ** Positional alignment in the categorise route *)
Module AlignmentFacts.
Import Js Model Shape MergeFacts LoopFacts Categorize.

Section Answered.
Variable toLowerCase : string -> string.
Variable parse : string -> Outcome (list Element).
Variable b : Backend.
Variable emails : list Email.

(** Every chat call returns a message with a non-empty text. *)
Hypothesis answered :
  forall n p, exists t, chat b n p = ChatMessage (Some t) /\ truthy t = true.

Lemma loop_aligned (fuel : nat) :
  forall i n acc log, List.length emails - i <= fuel ->
    exists R log',
      loop toLowerCase parse b emails fuel i n acc log = Some (Ok200 (acc ++ R), log')
      /\ forall j email text cat,
           nth_error (skipn i emails) j = Some email ->
           chat b (n + j / batchSize)
             (CategorizePrompt
                (map emailData
                   (slice (i + batchSize * (j / batchSize))
                          (i + batchSize * (j / batchSize) + batchSize)
                          emails)))
             = ChatMessage (Some text) ->
           parse text = Returned cat ->
           nth_error R j = Some (categorize_one toLowerCase cat (j mod batchSize) email).
Proof.
  assert (BS : batchSize <> 0) by (unfold batchSize; lia).
  induction fuel as [|fuel IH]; intros i n acc log H; rewrite loop_eq;
    destruct (Nat.ltb_spec i (List.length emails)) as [Hi|Hi]; try lia.
  - exists [], log. rewrite app_nil_r, skipn_all2 by lia.
    split; [reflexivity|]. intros [|j]; discriminate.
  - cbv zeta.
    set (B := slice i (i + batchSize) emails).
    destruct (answered n (CategorizePrompt (map emailData B)))
      as (t & CT & T).
    rewrite CT.
    destruct (IH (i + batchSize) (S n)
                (reconcile toLowerCase parse acc B (Some t))
                (log ++ [ChatCall (CategorizePrompt (map emailData B))]))
      as (R & log' & E & D); [unfold batchSize; lia|].
    rewrite E. rewrite reconcile_app, <- app_assoc.
    assert (RB : reconcile toLowerCase parse [] B (Some t) = merge toLowerCase parse [] B t)
      by (unfold reconcile; now rewrite T).
    rewrite RB.
    eexists _, log'. split; [reflexivity|].
    intros j email text cat N CH P.
    rewrite (slice_skipn emails i) in N. fold B in N.
    assert (LB : List.length B <= batchSize)
      by (apply (slice_length emails i Hi)).
    assert (ML : List.length (merge toLowerCase parse [] B t) = List.length B)
      by (apply (AnsweredFacts.merge_length toLowerCase parse)).
    destruct (Nat.lt_ge_cases j (List.length B)) as [J|J].
    + rewrite nth_error_app1 in N by assumption.
      rewrite nth_error_app1 by (rewrite ML; assumption).
      rewrite Nat.div_small, Nat.mul_0_r, !Nat.add_0_r in CH by lia.
      fold B in CH. rewrite CT in CH. injection CH as <-.
      rewrite Nat.mod_small by lia.
      unfold merge. rewrite P, forEach_push_nth, N. reflexivity.
    + rewrite nth_error_app2 in N by assumption.
      assert (JL : j - List.length B
                   < List.length (skipn (i + batchSize) emails))
        by (apply nth_error_Some; congruence).
      rewrite length_skipn in JL.
      assert (EB : List.length B = batchSize).
      { unfold B, slice. rewrite length_firstn, length_skipn. lia. }
      rewrite EB in *.
      rewrite nth_error_app2 by (rewrite ML; assumption).
      rewrite ML.
      assert (EJ : j = (j - batchSize) + 1 * batchSize) by lia.
      rewrite EJ in CH. rewrite EJ at 2.
      rewrite Nat.div_add in CH by assumption.
      rewrite Nat.Div0.mod_add.
      apply (D (j - batchSize) email text cat N); [|assumption].
      rewrite <- CH. f_equal; [lia|]. f_equal. f_equal. f_equal; lia.
  - exists [], log. rewrite app_nil_r, skipn_all2 by lia.
    split; [reflexivity|]. intros [|j]; discriminate.
Qed.

End Answered.

(** Records are matched to parsed elements by position alone: when every
    chat call returns a text, the record of the email at position g comes
    from the element at index g mod 10 of the array parsed for batch
    g / 10, whatever id that element carries. *)
Theorem categorize_aligns_by_position (toLowerCase : string -> string)
    (parse : string -> Outcome (list Element)) (b : Backend)
    (emails : list Email) :
  list_ok b = true ->
  (forall n p,
     exists t, chat b n p = ChatMessage (Some t) /\ truthy t = true) ->
  exists records log,
    POST toLowerCase parse b (EmailsArray emails) = Some (Ok200 records, log)
    /\ forall g email text categorization,
         nth_error emails g = Some email ->
         chat b (g / batchSize)
           (CategorizePrompt
              (map emailData
                 (slice (batchSize * (g / batchSize))
                        (batchSize * (g / batchSize) + batchSize) emails)))
           = ChatMessage (Some text) ->
         parse text = Returned categorization ->
         nth_error records g
         = Some (categorize_one toLowerCase categorization (g mod batchSize)
                   email).
Proof.
  intros OK AN.
  destruct (loop_aligned toLowerCase parse b emails AN (List.length emails) 0 0 []
              [ProbeCall]) as (R & log' & E & D); [lia|].
  exists R, log'. unfold POST, POST_fuel, enough_fuel. rewrite OK.
  simpl negb. cbv iota. split; [exact E | exact D].
Qed.

Lemma categorize_aligns_by_position_witness :
  exists records log,
    POST Samples.ascii_fold JsonHelper.parseAIResponse
      (Samples.backend_with (Some Samples.fenced))
      (EmailsArray [Samples.e1; Samples.e2])
    = Some (Ok200 records, log)
    /\ forall g email text categorization,
         nth_error [Samples.e1; Samples.e2] g = Some email ->
         chat (Samples.backend_with (Some Samples.fenced)) (g / batchSize)
           (CategorizePrompt
              (map emailData
                 (slice (batchSize * (g / batchSize))
                        (batchSize * (g / batchSize) + batchSize)
                        [Samples.e1; Samples.e2])))
           = ChatMessage (Some text) ->
         JsonHelper.parseAIResponse text = Returned categorization ->
         nth_error records g
         = Some (categorize_one Samples.ascii_fold categorization
                   (g mod batchSize) email).
Proof.
  apply (categorize_aligns_by_position Samples.ascii_fold
           JsonHelper.parseAIResponse
           (Samples.backend_with (Some Samples.fenced))
           [Samples.e1; Samples.e2]).
  - reflexivity.
  - intros n p. exists Samples.fenced. split; reflexivity.
Defined.

End AlignmentFacts.

(** ** The emails route and the status route *)
Module EmailsRouteFacts.
Import Js Model EmailsRoute Shape.

Lemma find_snoc {A : Type} (f : A -> bool) (l : list A) (x : A) :
  find f (l ++ [x])
  = match find f l with
    | Some y => Some y
    | None => if f x then Some x else None
    end.
Proof.
  induction l as [|y l IH]; simpl; [reflexivity|].
  destruct (f y); [reflexivity | exact IH].
Qed.

Lemma fold_headers (k : string) (headers : list Header) :
  forall acc,
    prop k (fold_left (fun acc header =>
                         JsonHelper.set_prop (h_name header) (h_value header)
                                             acc)
                      headers acc)
    = match find (fun h => String.eqb k (h_name h)) (rev headers) with
      | Some h => Some (h_value h)
      | None => prop k acc
      end.
Proof.
  induction headers as [|h headers IH]; intros acc; [reflexivity|].
  cbn [fold_left rev]. rewrite IH, find_snoc.
  destruct (find _ (rev headers)); [reflexivity|].
  destruct (String.eqb_spec k (h_name h)) as [->|D].
  - apply TodoPageFacts.prop_set_same.
  - now apply TodoPageFacts.prop_set_other.
Qed.

(** Looking a name up in the header map gives the value of the last header
    with that name.  So an email's subject is the value of its last
    Subject header, and "No Subject" when there is none or when that last
    value is empty. *)
Theorem header_lookup_last_wins (emailData : EmailData) (k : string) :
  (forall headers,
     prop k (headerMap headers)
     = option_map h_value
         (find (fun h => String.eqb k (h_name h)) (rev headers)))
  /\ f_subject (email_of emailData)
     = match m_headers emailData with
       | Some headers =>
           match find (fun h => String.eqb "Subject" (h_name h))
                      (rev headers) with
           | Some h => if truthy (h_value h) then h_value h else "No Subject"
           | None => "No Subject"
           end
       | None => "No Subject"
       end.
Proof.
  assert (L : forall headers,
            prop k (headerMap headers)
            = option_map h_value
                (find (fun h => String.eqb k (h_name h)) (rev headers))).
  { intros headers. unfold headerMap. rewrite fold_headers.
    destruct (find _ (rev headers)); reflexivity. }
  split; [exact L|].
  unfold email_of. cbn [f_subject].
  destruct (m_headers emailData) as [headers|]; [|reflexivity].
  unfold headerMap. rewrite fold_headers.
  destruct (find _ (rev headers)); reflexivity.
Qed.

Lemma fetch_all_app (g : Gmail) (messages : list string) :
  forall n emails,
    fetch_all g n messages emails = emails ++ fetch_all g n messages [].
Proof.
  induction messages as [|m rest IH]; intros n emails; simpl.
  - now rewrite app_nil_r.
  - destruct (get_message g n m); try apply IH.
    rewrite (IH (S n) (emails ++ _)), (IH (S n) [_]).
    now rewrite <- app_assoc.
Qed.

Lemma fetch_all_spec (g : Gmail) (messages : list string) :
  forall n,
    fetch_all g n messages []
    = flat_map (fun '(i, messageId) =>
                  match get_message g i messageId with
                  | FetchOk emailData => [email_of emailData]
                  | _ => []
                  end)
               (combine (seq n (List.length messages)) messages).
Proof.
  induction messages as [|m rest IH]; intros n; [reflexivity|].
  cbn [fetch_all List.length seq combine flat_map].
  destruct (get_message g n m); try apply IH.
  rewrite fetch_all_app, IH. reflexivity.
Qed.

Lemma flat_map_length_le {A B : Type} (f : A -> list B) (l : list A) :
  (forall x, List.length (f x) <= 1) ->
  List.length (flat_map f l) <= List.length l.
Proof.
  intros H. induction l as [|x l IH]; simpl; [lia|].
  rewrite length_app. specialize (H x). lia.
Qed.

Section Platform.

(** The numbers read from the environment and the date filter computed
    from them, as the platform has them. *)
Variable Num : Type.
Variable date_after : Num -> option string.

(** When the date filter can be computed and the list call succeeds, the
    route never fails: it makes the list call with that date and
    [maxResults], asks Gmail for every listed message once, in order, and
    returns, in that order, the emails of the detail calls that answered;
    a detail call that throws or is refused only makes the list shorter,
    and [total] is its length.  The answer reports [daysBack] and
    [maxResults] unless no message was listed. *)
Theorem fetch_skips_failures (g : Gmail) (daysBack maxResults : Num)
    (token dateStr : string) (listData : option (list string)) :
  date_after daysBack = Some dateStr ->
  list_messages g = FetchOk listData ->
  exists payload,
    GET Num date_after g daysBack maxResults (Some token)
    = (Ok200 payload,
       ListCall dateStr maxResults
       :: map GetCall (match listData with Some m => m | None => [] end))
    /\ success payload = true
    /\ emails payload
       = flat_map (fun '(i, messageId) =>
                     match get_message g i messageId with
                     | FetchOk emailData => [email_of emailData]
                     | _ => []
                     end)
           (combine
              (seq 0 (List.length
                        (match listData with Some m => m | None => [] end)))
              (match listData with Some m => m | None => [] end))
    /\ total payload = List.length (emails payload)
    /\ total payload
       <= List.length (match listData with Some m => m | None => [] end)
    /\ window payload
       = match listData with
         | Some (_ :: _) => Some (daysBack, maxResults)
         | _ => None
         end.
Proof.
  intros D L. unfold GET. rewrite D, L.
  set (messages := match listData with Some m => m | None => [] end).
  assert (W : match listData with
              | Some (_ :: _) => Some (daysBack, maxResults)
              | _ => None
              end
              = match messages with
                | [] => None
                | _ :: _ => Some (daysBack, maxResults)
                end)
    by (unfold messages; destruct listData as [[|m l]|]; reflexivity).
  rewrite W.
  destruct messages as [|m rest] eqn:E.
  - eexists. split; [reflexivity|]. cbn.
    split; [reflexivity|]. split; [reflexivity|]. split; [reflexivity|].
    split; [lia | reflexivity].
  - rewrite <- E. eexists. split; [reflexivity|].
    cbn [success emails total window]. rewrite fetch_all_spec.
    split; [reflexivity|]. split; [reflexivity|]. split; [reflexivity|].
    split; [|reflexivity].
    apply Nat.le_trans with
      (List.length (combine (seq 0 (List.length messages)) messages)).
    + apply flat_map_length_le. intros [i x].
      destruct (get_message g i x); simpl; lia.
    + rewrite length_combine, length_seq. lia.
Qed.

(** The emails route fails in three ways only.  Without the access-token
    cookie it answers 401 and makes no Gmail call.  With the cookie, when
    the date filter cannot be computed (the date is not valid, as for a
    [DAYS_BACK] that is not a number) it answers 500 'Failed to retrieve
    emails', again without any Gmail call.  Otherwise it fails only when
    the list call throws or is refused, with status 500 after that one
    call.  Each of the three does happen under its condition. *)
Theorem emails_route_failures (g : Gmail) (daysBack maxResults : Num)
    (accessToken : option string) :
  (forall status error log,
     GET Num date_after g daysBack maxResults accessToken
       = (Failure status error, log) ->
     (accessToken = None /\ status = 401 /\ error = "Not authenticated"
      /\ log = [])
     \/ (accessToken <> None /\ date_after daysBack = None
         /\ status = 500 /\ error = "Failed to retrieve emails"
         /\ log = [])
     \/ (exists dateStr,
           accessToken <> None /\ date_after daysBack = Some dateStr
           /\ status = 500 /\ log = [ListCall dateStr maxResults]
           /\ ((list_messages g = FetchThrows
                /\ error = "Failed to retrieve emails")
               \/ (list_messages g = FetchNotOk
                   /\ error = "Failed to retrieve email list"))))
  /\ (accessToken = None ->
      GET Num date_after g daysBack maxResults accessToken
      = (Failure 401 "Not authenticated", []))
  /\ (accessToken <> None -> date_after daysBack = None ->
      GET Num date_after g daysBack maxResults accessToken
      = (Failure 500 "Failed to retrieve emails", []))
  /\ (forall dateStr,
        accessToken <> None -> date_after daysBack = Some dateStr ->
        (list_messages g = FetchThrows ->
         GET Num date_after g daysBack maxResults accessToken
         = (Failure 500 "Failed to retrieve emails",
            [ListCall dateStr maxResults]))
        /\ (list_messages g = FetchNotOk ->
            GET Num date_after g daysBack maxResults accessToken
            = (Failure 500 "Failed to retrieve email list",
               [ListCall dateStr maxResults]))).
Proof.
  unfold GET. split; [|split; [|split]].
  - intros status error log E.
    destruct accessToken as [token|]; [right | left; inversion E; auto].
    destruct (date_after daysBack) as [dateStr|] eqn:D.
    + right. exists dateStr.
      destruct (list_messages g) as [| |listData] eqn:L.
      * inversion E; subst.
        split; [discriminate|]. split; [reflexivity|].
        split; [reflexivity|]. split; [reflexivity|]. left. auto.
      * inversion E; subst.
        split; [discriminate|]. split; [reflexivity|].
        split; [reflexivity|]. split; [reflexivity|]. right. auto.
      * destruct listData as [[|m rest]|]; discriminate.
    + left. inversion E; subst.
      split; [discriminate|]. auto.
  - intros ->. reflexivity.
  - intros T D. destruct accessToken; [|congruence]. now rewrite D.
  - intros dateStr T D. destruct accessToken; [|congruence]. rewrite D.
    split; intros ->; reflexivity.
Qed.

End Platform.

Lemma fetch_skips_failures_witness :
  exists payload,
    GET (option nat)
      (fun daysBack =>
         match daysBack with Some _ => Some "2024-07-28" | None => None end)
      {| list_messages := FetchOk (Some ["m1"; "m2"]);
         get_message := fun n _ =>
           match n with
           | 0 => FetchNotOk
           | _ => FetchOk {| m_id := "m2"; m_threadId := "t2";
                             m_headers := None; m_snippet := None;
                             m_labelIds := None; m_internalDate := "0";
                             m_sizeEstimate := 0 |}
           end |} (Some 2) (Some 10) (Some "token")
    = (Ok200 payload,
       [ListCall "2024-07-28" (Some 10); GetCall "m1"; GetCall "m2"])
    /\ total payload = 1
    /\ window payload = Some (Some 2, Some 10).
Proof.
  destruct (fetch_skips_failures (option nat)
              (fun daysBack =>
                 match daysBack with
                 | Some _ => Some "2024-07-28"
                 | None => None
                 end)
              {| list_messages := FetchOk (Some ["m1"; "m2"]);
                 get_message := fun n _ =>
                   match n with
                   | 0 => FetchNotOk
                   | _ => FetchOk {| m_id := "m2"; m_threadId := "t2";
                                     m_headers := None; m_snippet := None;
                                     m_labelIds := None; m_internalDate := "0";
                                     m_sizeEstimate := 0 |}
                   end |} (Some 2) (Some 10) "token" "2024-07-28"
              (Some ["m1"; "m2"]) eq_refl eq_refl)
    as (payload & E & _ & M & T & _ & W).
  exists payload. split; [exact E|]. split; [|exact W].
  rewrite T, M. reflexivity.
Defined.

Lemma emails_route_failures_witness :
  GET (option nat)
    (fun daysBack =>
       match daysBack with Some _ => Some "2024-07-28" | None => None end)
    {| list_messages := FetchOk (Some ["m1"]);
       get_message := fun _ _ => FetchNotOk |}
    None (Some 10) (Some "token")
  = (Failure 500 "Failed to retrieve emails", [])
  /\ ((Some "token" = None /\ 500 = 401
       /\ "Failed to retrieve emails" = "Not authenticated"
       /\ @nil (GmailCall (option nat)) = [])
      \/ (Some "token" <> None
          /\ @None string = None
          /\ 500 = 500
          /\ "Failed to retrieve emails" = "Failed to retrieve emails"
          /\ @nil (GmailCall (option nat)) = [])
      \/ (exists dateStr,
            Some "token" <> None /\ @None string = Some dateStr
            /\ 500 = 500
            /\ @nil (GmailCall (option nat)) = [ListCall dateStr (Some 10)]
            /\ ((@FetchOk (option (list string)) (Some ["m1"]) = FetchThrows
                 /\ "Failed to retrieve emails" = "Failed to retrieve emails")
                \/ (@FetchOk (option (list string)) (Some ["m1"]) = FetchNotOk
                    /\ "Failed to retrieve emails"
                       = "Failed to retrieve email list")))).
Proof.
  destruct (emails_route_failures (option nat)
              (fun daysBack =>
                 match daysBack with
                 | Some _ => Some "2024-07-28"
                 | None => None
                 end)
              {| list_messages := FetchOk (Some ["m1"]);
                 get_message := fun _ _ => FetchNotOk |}
              None (Some 10) (Some "token")) as (A & _ & C & _).
  split.
  - apply C; [discriminate | reflexivity].
  - exact (A 500 "Failed to retrieve emails" [] eq_refl).
Defined.

(** The status route reports an authenticated session exactly when the
    cookie is there and Gmail accepts it; it deletes both cookies exactly
    when Gmail answers and refuses the token, and keeps them when the call
    throws; without the cookie it makes no call. *)
Theorem status_route_cookies (profile : Fetch unit) (cookieStore : Cookies) :
  (fst (fst (status_GET profile cookieStore)) = true
   <-> access_token cookieStore <> None /\ profile = FetchOk tt)
  /\ (access_token cookieStore <> None /\ profile = FetchNotOk ->
      snd (fst (status_GET profile cookieStore))
      = {| access_token := None; refresh_token := None |})
  /\ (access_token cookieStore = None \/ profile <> FetchNotOk ->
      snd (fst (status_GET profile cookieStore)) = cookieStore)
  /\ (snd (status_GET profile cookieStore)
      = match access_token cookieStore with Some _ => 1 | None => 0 end).
Proof.
  unfold status_GET.
  destruct (access_token cookieStore) as [t|] eqn:A;
    destruct profile as [| |[]]; cbn [fst snd];
    repeat split; try discriminate; try reflexivity; try tauto;
    try (intros [H _]; congruence); try (intros [_ H]; congruence);
    try (intros [H|H]; congruence).
Qed.

Lemma status_route_cookies_witness :
  snd (fst (status_GET FetchNotOk
              {| access_token := Some "a"; refresh_token := Some "r" |}))
  = {| access_token := None; refresh_token := None |}.
Proof.
  apply (proj1 (proj2 (status_route_cookies FetchNotOk
           {| access_token := Some "a"; refresh_token := Some "r" |}))).
  split; [discriminate | reflexivity].
Defined.

End EmailsRouteFacts.

(** ** The assistant routes *)
Module AssistantFacts.
Import Js Model Assistant KeywordFacts ToneFacts.

Lemma copy_messages (l : list Msg) :
  map (fun msg => {| role := role msg; content := content msg |}) l = l.
Proof.
  induction l as [|[r c] l IH]; simpl; [reflexivity | now rewrite IH].
Qed.

Lemma last_ten_suffix {A : Type} (history : list A) :
  history = firstn (List.length history - 10) history ++ last_ten history
  /\ List.length (last_ten history) = Nat.min 10 (List.length history).
Proof.
  unfold last_ten. split.
  - symmetry. apply firstn_skipn.
  - rewrite length_skipn. lia.
Qed.

(** Both assistants send the system prompt first, then the last ten
    messages of the conversation in their order (all of them when there
    are fewer), then the user's question: never more than twelve
    messages. *)
Theorem assistant_history_window (email : Email) (question : string)
    (tone : option string) (selectedEmails : option (list Email))
    (tasks : option (list Obj)) (history : list Msg) :
  exists older recent,
    history = older ++ recent
    /\ List.length recent = Nat.min 10 (List.length history)
    /\ messages_of email question tone (Some history)
       = {| role := System; content := systemPrompt email tone |}
         :: recent ++ [ {| role := User; content := question |} ]
    /\ todo_messages question selectedEmails tasks tone (Some history)
       = {| role := System; content := todo_system tone |}
         :: recent
         ++ [ {| role := User;
                 content := fullQuestion question
                              (build_context selectedEmails tasks) |} ]
    /\ List.length (messages_of email question tone (Some history)) <= 12.
Proof.
  destruct (last_ten_suffix history) as [S L].
  exists (firstn (List.length history - 10) history), (last_ten history).
  split; [exact S|]. split; [exact L|].
  unfold messages_of, todo_messages. rewrite copy_messages.
  split; [reflexivity|]. split; [reflexivity|].
  cbn [app List.length]. rewrite length_app, L. cbn [List.length]. lia.
Qed.

(** The organise assistant answers 200 exactly when the OpenAI key is set,
    the request has an email and a non-empty question, and no chat call
    throws; its [response] is then never empty, and it makes a second chat
    call, for the draft, exactly when the lower-cased question mentions
    reply, respond or draft, whatever function [toLowerCase] is: otherwise
    the draft is empty. *)
Theorem assistant_outcomes (toLowerCase : string -> string)
    (apiKey : option string) (service : ChatService)
    (question : option string) (email : option Email) (tone : option string)
    (conversationHistory : option (list Msg)) :
  ((exists answer,
      fst (POST toLowerCase apiKey service question email tone
             conversationHistory)
      = Ok200 answer)
   <-> truthy (or_else apiKey EmptyString) = true
       /\ exists e q,
            email = Some e /\ question = Some q /\ truthy q = true
            /\ service 0 (messages_of e q tone conversationHistory)
               <> ChatThrows
            /\ (wants_draft toLowerCase q = true ->
                service 1 (draft_messages e q tone) <> ChatThrows))
  /\ (forall response draftResponse log,
        POST toLowerCase apiKey service question email tone conversationHistory
        = (Ok200 (response, draftResponse), log) ->
        response <> EmptyString
        /\ exists q,
             question = Some q
             /\ List.length log = (if wants_draft toLowerCase q then 2 else 1)
             /\ (wants_draft toLowerCase q = false ->
                 draftResponse = EmptyString)).
Proof.
  unfold POST.
  assert (NE : forall reply, or_else reply no_answer <> EmptyString).
  { intros [[|c r]|]; discriminate. }
  destruct (truthy (or_else apiKey EmptyString)); cbn [negb].
  2:{ split.
      - split; [intros [a H]; discriminate | intros [H _]; discriminate].
      - intros r d l H. discriminate. }
  destruct email as [e|], question as [q|].
  2,3,4: (split;
          [ split; [intros [a H]; discriminate
                   | intros (_ & e' & q' & E1 & E2 & _); discriminate]
          | intros r d l H; discriminate ]).
  destruct (truthy q) eqn:T.
  2:{ split.
      - split; [intros [a H]; discriminate|].
        intros (_ & e' & q' & E1 & E2 & T' & _).
        inversion E2; subst. congruence.
      - intros r d l H. discriminate. }
  destruct (service 0 (messages_of e q tone conversationHistory))
    as [|reply] eqn:S0.
  { split.
    - split; [intros [a H]; discriminate|].
      intros (_ & e' & q' & E1 & E2 & _ & C & _).
      inversion E1; inversion E2; subst. congruence.
    - intros r d l H. discriminate. }
  destruct (wants_draft toLowerCase q) eqn:W.
  - destruct (service 1 (draft_messages e q tone)) as [|dr] eqn:S1.
    + split.
      * split; [intros [a H]; discriminate|].
        intros (_ & e' & q' & E1 & E2 & _ & _ & C).
        inversion E1; inversion E2; subst. rewrite W in C.
        specialize (C eq_refl). congruence.
      * intros r d l H. discriminate.
    + split.
      * split; [|intros _; eexists; reflexivity].
        intros _. split; [reflexivity|]. exists e, q.
        repeat split; try assumption; try congruence.
      * intros r d l H. inversion H; subst. split; [apply NE|].
        exists q. rewrite W. repeat split. discriminate.
  - split.
    + split; [|intros _; eexists; reflexivity].
      intros _. split; [reflexivity|]. exists e, q.
      repeat split; try assumption; try congruence.
    + intros r d l H. inversion H; subst. split; [apply NE|].
      exists q. rewrite W. repeat split.
Qed.

Lemma assistant_outcomes_witness :
  exists answer,
    fst (POST Samples.ascii_fold (Some "sk-test") (fun _ _ => ChatMessage None)
           (Some "Please DRAFT an answer") (Some Samples.e1) None None)
    = Ok200 answer.
Proof.
  apply (proj2 (proj1 (assistant_outcomes Samples.ascii_fold
                         (Some "sk-test")
                         (fun _ _ => ChatMessage None)
                         (Some "Please DRAFT an answer") (Some Samples.e1)
                         None None))).
  split; [reflexivity|]. exists Samples.e1, "Please DRAFT an answer".
  repeat split; discriminate.
Defined.

Lemma append_nil_r (s : string) : (s ++ EmptyString)%string = s.
Proof. induction s as [|c s IH]; simpl; [reflexivity | now rewrite IH]. Qed.

Lemma includes_refl (s : string) : includes s s = true.
Proof. rewrite <- (append_nil_r s) at 1. apply includes_here. Qed.

(** The organise assistant writes the tone into its prompts as it comes,
    and the word "undefined" when the request has none; the to-do
    assistant falls back to "professional". *)
Theorem assistant_tone (email : Email) (question : string)
    (tone : option string) :
  includes (systemPrompt email tone) ("Tone preference: " ++ template tone)
    = true
  /\ includes (draftPrompt email question tone) ("Tone: " ++ template tone)
     = true
  /\ includes (systemPrompt email None) "Tone preference: undefined" = true
  /\ todo_system None = todo_system (Some "professional")
  /\ includes (todo_system tone)
       ("Always provide practical, actionable advice. Be "
        ++ or_else tone "professional" ++ " in your tone.") = true.
Proof.
  assert (A : forall t, includes (systemPrompt email t)
                          ("Tone preference: " ++ template t) = true).
  { intros t. unfold systemPrompt.
    repeat first [ apply includes_here2 | apply includes_app_r ]. }
  split; [apply A|]. split; [|split; [exact (A None)|split]].
  - unfold draftPrompt.
    repeat first [ apply includes_here2 | apply includes_app_r ].
  - reflexivity.
  - unfold todo_system.
    repeat first [ apply includes_refl | apply includes_app_r ].
Qed.

Lemma append_entries_spec {A : Type} (entry : nat -> A -> string)
    (xs : list A) :
  forall k context,
    append_entries entry k xs context
    = (context ++ append_entries entry k xs EmptyString)%string.
Proof.
  induction xs as [|x xs IH]; intros k context; simpl.
  - now rewrite append_nil_r.
  - rewrite (IH (S k) (context ++ _)%string), (IH (S k) (entry k x)).
    now rewrite append_assoc.
Qed.

Lemma append_entries_includes {A : Type} (entry : nat -> A -> string)
    (xs : list A) :
  forall k context i x needle,
    nth_error xs i = Some x ->
    includes (entry (k + i) x) needle = true ->
    includes (append_entries entry k xs context) needle = true.
Proof.
  induction xs as [|y xs IH]; intros k context i x needle N I.
  - destruct i; discriminate.
  - destruct i as [|i]; simpl in N.
    + inversion N; subst. rewrite Nat.add_0_r in I. simpl.
      rewrite append_entries_spec.
      apply includes_app_l, includes_app_r. exact I.
    + simpl. apply (IH (S k) _ i x needle N).
      now replace (S k + i) with (k + S i) by lia.
Qed.

(** The context the to-do assistant sends lists every selected email and
    every task, numbered from 1, with its subject or title; it is empty
    when there is neither, and a task without a status is written with
    status "undefined". *)
Theorem todo_context_lists_selection (selectedEmails : list Email)
    (tasks : list Obj) :
  (forall others i email,
     nth_error selectedEmails i = Some email ->
     includes (build_context (Some selectedEmails) others)
       (decimal (i + 1) ++ ". Subject: " ++ subject email) = true)
  /\ (forall others i task,
       nth_error tasks i = Some task ->
       includes (build_context others (Some tasks))
         (decimal (i + 1) ++ ". " ++ template (prop "title" task)) = true)
  /\ build_context None None = EmptyString
  /\ build_context (Some []) (Some []) = EmptyString
  /\ (forall i task,
       prop "status" task = None ->
       includes (task_entry i task) ", undefined)" = true).
Proof.
  split; [|split; [|split; [|split]]]; try reflexivity.
  - intros others i email N. unfold build_context.
    destruct selectedEmails as [|e es]; [destruct i; discriminate|].
    assert (I : forall context,
              includes (append_entries email_entry 0 (e :: es) context)
                (decimal (i + 1) ++ ". Subject: " ++ subject email) = true).
    { intros context.
      apply (append_entries_includes email_entry (e :: es) 0 context i email);
        [exact N|].
      unfold email_entry. cbn [Nat.add]. apply includes_here3. }
    destruct others as [[|t ts]|]; try apply I.
    rewrite append_entries_spec. apply includes_app_l.
    apply includes_app_l. apply I.
  - intros others i task N. unfold build_context.
    destruct tasks as [|t ts]; [destruct i; discriminate|].
    apply (append_entries_includes task_entry (t :: ts) 0 _ i task);
      [exact N|].
    unfold task_entry. cbn [Nat.add]. apply includes_here3.
  - intros i task S. unfold task_entry. rewrite S. cbn [template].
    do 7 apply includes_app_r.
    exact (includes_here ", undefined)" _).
Qed.

Lemma todo_context_lists_selection_witness :
  includes (build_context (Some [Samples.e1; Samples.e2]) None)
    (decimal (1 + 1) ++ ". Subject: " ++ subject Samples.e2) = true.
Proof.
  exact (proj1 (todo_context_lists_selection [Samples.e1; Samples.e2] [])
           None 1 Samples.e2 eq_refl).
Defined.

End AssistantFacts.

(** ** More on the draft route, the task prompt and the to-do page's
    generation *)
Module RoutesMore.
Import Js Model KeywordFacts ToneFacts.

(** The draft route answers 200 exactly when the probe succeeds, the
    request has an email and the chat call does not throw; the draft it
    returns is never empty; and a failed probe is reported before a
    missing email is. *)
Theorem draft_route_outcomes (b : Backend) (email : option Email)
    (tone instructions : option string) :
  ((exists draft, fst (Draft.POST b email tone instructions) = Ok200 draft)
   <-> list_ok b = true
       /\ exists e,
            email = Some e
            /\ chat b 0 (DraftPrompt (Draft.prompt e tone instructions))
               <> ChatThrows)
  /\ (forall draft,
        fst (Draft.POST b email tone instructions) = Ok200 draft ->
        draft <> EmptyString)
  /\ (list_ok b = false ->
      Draft.POST b email tone instructions
      = (Failure 500 ollama_unavailable, [ProbeCall]))
  /\ (list_ok b = true -> email = None ->
      Draft.POST b email tone instructions
      = (Failure 400 "Email is required", [ProbeCall])).
Proof.
  unfold Draft.POST.
  destruct (list_ok b); cbn [negb].
  2:{ split; [|split; [|split]].
      - split; [intros [d H]; discriminate | intros [H _]; discriminate].
      - intros d H. discriminate.
      - reflexivity.
      - discriminate. }
  destruct email as [e|].
  2:{ split; [|split; [|split]].
      - split; [intros [d H]; discriminate|].
        intros (_ & e & H & _). discriminate.
      - intros d H. discriminate.
      - discriminate.
      - reflexivity. }
  destruct (chat b 0 (DraftPrompt (Draft.prompt e tone instructions)))
    as [|content] eqn:C; cbn [fst].
  - split; [|split; [|split]].
    + split; [intros [d H]; discriminate|].
      intros (_ & e' & E & N). inversion E; subst. congruence.
    + intros d H. discriminate.
    + discriminate.
    + discriminate.
  - split; [|split; [|split]].
    + split; [|intros _; eexists; reflexivity].
      intros _. split; [reflexivity|]. exists e. split; [reflexivity|].
      rewrite C. discriminate.
    + intros d H. inversion H; subst.
      destruct content as [[|c r]|]; discriminate.
    + discriminate.
    + discriminate.
Qed.

Lemma draft_route_outcomes_witness :
  Draft.POST Samples.backend_down None None None
  = (Failure 500 ollama_unavailable, [ProbeCall]).
Proof.
  apply (proj1 (proj2 (proj2 (draft_route_outcomes Samples.backend_down None
                                None None)))).
  reflexivity.
Defined.

Lemma includes_join (sep x : string) (xs : list string) :
  In x xs -> includes (join sep xs) x = true.
Proof.
  induction xs as [|y xs IH]; intros I; [contradiction|].
  destruct xs as [|z xs].
  - destruct I as [->|[]]. apply AssistantFacts.includes_refl.
  - change (join sep (y :: z :: xs))
      with (y ++ sep ++ join sep (z :: xs))%string.
    destruct I as [->|I].
    + apply includes_here.
    + apply includes_app_r, includes_app_r. now apply IH.
Qed.

(** The task prompt holds the block of every email of the request, with
    its subject and sender.  The content shown is the snippet, and the
    body only when the snippet is empty; an email with neither is written
    with content "undefined". *)
Theorem task_prompt_blocks (emails : list Email) (email : Email) :
  (In email emails ->
   includes (Tasks.emailContent emails) (Tasks.email_block email) = true)
  /\ includes (Tasks.email_block email) ("Subject: " ++ subject email) = true
  /\ includes (Tasks.email_block email) ("From: " ++ sender email) = true
  /\ (truthy (snippet email) = true ->
      includes (Tasks.email_block email) ("Content: " ++ snippet email)
      = true)
  /\ (snippet email = EmptyString ->
      forall text, body email = Some text ->
      includes (Tasks.email_block email) ("Content: " ++ text) = true)
  /\ (snippet email = EmptyString -> body email = None ->
      includes (Tasks.email_block email) "Content: undefined" = true).
Proof.
  split; [|split; [|split; [|split; [|split]]]].
  - intros I. unfold Tasks.emailContent. apply includes_join.
    now apply in_map.
  - unfold Tasks.email_block. cbv zeta. apply includes_here2.
  - unfold Tasks.email_block. cbv zeta.
    repeat first [ apply includes_here2 | apply includes_app_r ].
  - intros T. unfold Tasks.email_block. rewrite T. cbn [template].
    do 6 apply includes_app_r. apply includes_here2.
  - intros S text B. unfold Tasks.email_block. rewrite S, B.
    cbn [truthy template]. do 6 apply includes_app_r. apply includes_here2.
  - intros S B. unfold Tasks.email_block. rewrite S, B. cbn [truthy template].
    do 6 apply includes_app_r. exact (includes_here2 "Content: " "undefined" _).
Qed.

Lemma task_prompt_blocks_witness :
  includes (Tasks.emailContent [Samples.e1; Samples.e2])
           (Tasks.email_block Samples.e2) = true.
Proof.
  apply (proj1 (task_prompt_blocks [Samples.e1; Samples.e2] Samples.e2)).
  right. now left.
Defined.

(** Generating tasks never changes the page's emails.  Without an alert the
    selection is cleared and the page gains one task per task of the
    answer; with an alert the page is unchanged.  When none of the page's
    emails is selected nothing reaches the backend and an alert is
    shown. *)
Theorem generate_tasks_page_effects
    (parse : string -> Outcome (list Element)) (b : Backend) (now : nat)
    (tone : string) (st st' : Tasks.Page) (alert : option string)
    (log : list Call) :
  Tasks.generateTasksFromEmails parse b now tone st = (st', alert, log) ->
  Tasks.emails st' = Tasks.emails st
  /\ (alert = None ->
      Tasks.selectedEmails st' = []
      /\ exists data,
           Tasks.POST parse b (EmailsArray (Tasks.selected st)) (Some tone)
           = (Ok200 data, log)
           /\ Tasks.page_tasks st'
              = Tasks.page_tasks st
                ++ Tasks.map_index now 0 (Tasks.tasks data)
           /\ List.length (Tasks.page_tasks st')
              = List.length (Tasks.page_tasks st)
                + List.length (Tasks.tasks data))
  /\ (alert <> None -> st' = st)
  /\ (Tasks.selected st = [] -> alert <> None /\ log = []).
Proof.
  unfold Tasks.generateTasksFromEmails. intros G.
  destruct (Tasks.selectedEmails st) as [|s sel] eqn:S.
  - inversion G; subst. split; [reflexivity|]. split; [discriminate|].
    split; [reflexivity|]. intros _. split; [discriminate | reflexivity].
  - destruct (Tasks.POST parse b (EmailsArray (Tasks.selected st)) (Some tone))
      as [[data|status error] l'] eqn:P; inversion G; subst; cbn.
    + split; [reflexivity|]. split; [|split].
      * intros _. split; [reflexivity|]. exists data.
        split; [reflexivity|]. split; [reflexivity|].
        now rewrite length_app, TasksFacts.map_index_length.
      * intros N. congruence.
      * intros E. rewrite E in P. discriminate.
    + split; [reflexivity|]. split; [discriminate|].
      split; [reflexivity|].
      intros E. rewrite E in P. cbn in P. inversion P.
      split; [discriminate | reflexivity].
Qed.

Lemma generate_tasks_page_effects_witness :
  Some "Error generating tasks: No emails provided" <> None
  /\ @nil Call = [].
Proof.
  apply (proj2 (proj2 (proj2 (generate_tasks_page_effects
           JsonHelper.parseAIResponse
           (Samples.backend_with (Some Samples.reply_task)) 7 "professional"
           {| Tasks.emails := [Samples.e1]; Tasks.selectedEmails := ["zz"];
              Tasks.page_tasks := [] |} _ _ _ eq_refl)))).
  reflexivity.
Defined.

End RoutesMore.

(** ** The OpenAI variants *)
Module OpenAIFacts.
Import Js Model OpenAI.

Section Route.
Variable JSON_parse : string -> Outcome Parsed.

Lemma openai_categorize_one_fields (cat : list Element) (i : nat) (email : Email) :
  record_fields (categorize_one cat i email) = email_fields email.
Proof.
  unfold categorize_one. destruct (nth_error cat i) as [[o|]|]; reflexivity.
Qed.

Lemma openai_forEach_push_app (cat : list Element) (batch : list Email) :
  forall i acc,
    forEach_push cat i batch acc = acc ++ forEach_push cat i batch [].
Proof.
  induction batch as [|e rest IH]; intros i acc; simpl.
  - now rewrite app_nil_r.
  - rewrite (IH (S i) (acc ++ _)), (IH (S i) [_]).
    now rewrite <- app_assoc.
Qed.

Lemma openai_forEach_push_nth (cat : list Element) (batch : list Email) :
  forall i j,
    nth_error (forEach_push cat i batch []) j
    = option_map (categorize_one cat (i + j)) (nth_error batch j).
Proof.
  induction batch as [|e rest IH]; intros i j.
  - destruct j; reflexivity.
  - simpl forEach_push. rewrite openai_forEach_push_app.
    destruct j as [|j]; simpl.
    + now rewrite Nat.add_0_r.
    + rewrite IH. now replace (S i + j) with (i + S j) by lia.
Qed.

Lemma openai_merge_nth (batch : list Email) (text : string) (j : nat) :
  nth_error (merge JSON_parse [] batch text) j
  = option_map (record_for (JSON_parse text) j) (nth_error batch j).
Proof.
  unfold merge, record_for. destruct (JSON_parse text) as [[|cat]|m].
  - rewrite MergeFacts.fallback_push_map. simpl. apply nth_error_map.
  - apply openai_forEach_push_nth.
  - rewrite MergeFacts.fallback_push_map. simpl. apply nth_error_map.
Qed.

Lemma openai_merge_app (acc : list CategorizedEmail) (batch : list Email)
    (text : string) :
  merge JSON_parse acc batch text = acc ++ merge JSON_parse [] batch text.
Proof.
  unfold merge. destruct (JSON_parse text) as [[|cat]|m].
  - now rewrite !MergeFacts.fallback_push_map.
  - apply openai_forEach_push_app.
  - now rewrite !MergeFacts.fallback_push_map.
Qed.

Lemma openai_record_for_fields (outcome : Outcome Parsed) (i : nat) (email : Email) :
  record_fields (record_for outcome i email) = email_fields email.
Proof.
  destruct outcome as [[|cat]|m]; try reflexivity. apply openai_categorize_one_fields.
Qed.

Lemma openai_merge_fields (batch : list Email) (text : string) :
  map record_fields (merge JSON_parse [] batch text) = map email_fields batch.
Proof.
  apply nth_error_ext. intros j.
  rewrite !nth_error_map, openai_merge_nth.
  destruct (nth_error batch j); simpl; [|reflexivity].
  now rewrite openai_record_for_fields.
Qed.

(** For a non-empty response text the OpenAI categorise route adds one
    record per email of the batch: the email's fields with, by position,
    the theme and category the model wrote (kept as written, and "other" /
    "general" where one is missing or empty), or the defaults for every
    email when the text does not parse or parses to null. *)
Theorem openai_categorize_batch (collected : list CategorizedEmail)
    (batch : list Email) (responseText : string) :
  truthy responseText = true ->
  exists records,
    reconcile JSON_parse collected batch (Some responseText)
    = collected ++ records
    /\ List.length records = List.length batch
    /\ map record_fields records = map email_fields batch
    /\ (forall i email,
         nth_error batch i = Some email ->
         nth_error records i
         = Some (record_for (JSON_parse responseText) i email))
    /\ (forall i email categorization o,
         nth_error batch i = Some email ->
         JSON_parse responseText = Returned (ParsedIndexed categorization) ->
         nth_error categorization i = Some (Some o) ->
         nth_error records i
         = Some (spread_with email (or_else (prop "theme" o) "other")
                                   (or_else (prop "category" o) "general"))).
Proof.
  intros T. exists (merge JSON_parse [] batch responseText).
  unfold reconcile. rewrite T. split; [apply openai_merge_app|].
  assert (F := openai_merge_fields batch responseText).
  split; [|split; [exact F|split]].
  - apply (f_equal (@List.length _)) in F. now rewrite !length_map in F.
  - intros i email N. now rewrite openai_merge_nth, N.
  - intros i email cat o N P C. rewrite openai_merge_nth, N, P. simpl.
    unfold categorize_one. now rewrite C.
Qed.

End Route.

Lemma openai_categorize_batch_witness :
  exists records,
    reconcile (fun _ => Returned (ParsedIndexed [Some [("theme", "spam")]]))
      [] [Samples.e1; Samples.e2] (Some "[]")
    = [] ++ records
    /\ nth_error records 0
       = Some (spread_with Samples.e1 "spam" "general")
    /\ nth_error records 1 = Some (Categorize.default_record Samples.e2).
Proof.
  destruct (openai_categorize_batch
              (fun _ => Returned (ParsedIndexed [Some [("theme", "spam")]]))
              [] [Samples.e1; Samples.e2] "[]" eq_refl)
    as (records & E & _ & _ & R & M).
  exists records. split; [exact E|]. split.
  - exact (M 0 Samples.e1 _ _ eq_refl eq_refl eq_refl).
  - exact (R 1 Samples.e2 eq_refl).
Defined.

(** With the key set and the backend up, the OpenAI and the Ollama draft
    routes give the same answer to the same request when their chat
    services reply alike; without the key the OpenAI routes answer 500
    and make no call. *)
Theorem draft_variants_agree (apiKey : option string) (b : Backend)
    (email : option Email) (tone instructions : option string) :
  (key_missing apiKey = false ->
   list_ok b = true ->
   fst (draft_POST apiKey (chat b) email tone instructions)
   = fst (Draft.POST b email tone instructions))
  /\ (key_missing apiKey = true ->
      draft_POST apiKey (chat b) email tone instructions
      = (Failure 500 "OpenAI API key not configured", [])
      /\ forall parse emails,
           categorize_POST parse apiKey (chat b) emails
           = Some (Failure 500 "OpenAI API key not configured", [])).
Proof.
  unfold draft_POST, Draft.POST, categorize_POST. split.
  - intros K OK. rewrite K, OK. cbn [negb].
    destruct email as [e|]; [|reflexivity].
    destruct (chat b 0 _); reflexivity.
  - intros K. rewrite K. split; reflexivity.
Qed.

Lemma draft_variants_agree_witness :
  fst (draft_POST (Some "sk-test")
         (chat (Samples.backend_with (Some "Dear customer")))
         (Some Samples.e1) None None)
  = fst (Draft.POST (Samples.backend_with (Some "Dear customer"))
           (Some Samples.e1) None None).
Proof.
  apply (proj1 (draft_variants_agree (Some "sk-test")
                  (Samples.backend_with (Some "Dear customer"))
                  (Some Samples.e1) None None)); reflexivity.
Defined.

End OpenAIFacts.
